(** * Maestro Go SDK: a shallow embedding of [maestro.go]

    The client library of the Maestro service registry: construction of a
    [Client], the four exchanges ([Register], [Deregister], [Ping], [Query])
    and the background loop [StartPing].

    Strings are [string] (sequences of bytes, as in Go), [time.Duration] and
    [int] are [Z], a pointer that may be [nil] is an [option].  What the Go
    standard library does behind [net/http], [net/url] and [encoding/json]
    is not part of this repository: it is an interface ([Platform]) the
    development is parametric in.  [fmt.Sprintf] is modelled for the
    directives the package can reach with its [string] and [int] operands. *)

From Stdlib Require Import ZArith List String Ascii Bool Lia.
From Stdlib Require Import DecimalString DecimalZ DecimalPos.
Import ListNotations.

Local Open Scope string_scope.
Local Open Scope Z_scope.

(** ** Strings *)

Module strings.

(** [strings.HasSuffix]: [len(s) >= len(suffix) && s[len(s)-len(suffix):] == suffix]. *)
Definition HasSuffix (s suffix : string) : bool :=
  (String.length suffix <=? String.length s)%nat &&
  (substring (String.length s - String.length suffix) (String.length suffix) s =? suffix)%string.

(** [strings.TrimSuffix]: [s] without the trailing [suffix], or [s] itself. *)
Definition TrimSuffix (s suffix : string) : string :=
  if HasSuffix s suffix
  then substring 0 (String.length s - String.length suffix) s
  else s.

(** Whether byte [c] occurs in [s]. *)
Fixpoint ContainsByte (s : string) (c : ascii) : bool :=
  match s with
  | EmptyString => false
  | String x rest => (x =? c)%char || ContainsByte rest c
  end.

End strings.

(** ** The [fmt] package, for [string] and [int] operands *)

Module fmt.

(** An operand of [Sprintf]: the package passes only strings and ints. *)
Inductive arg : Type :=
| ArgString (s : string)
| ArgInt (n : Z).

(** [reflect.TypeOf(a).String()] *)
Definition typeName (a : arg) : string :=
  match a with
  | ArgString _ => "string"
  | ArgInt _ => "int"
  end.

(** Base 10 rendering of an [int], with a leading [-] when negative. *)
Definition itoa (n : Z) : string := NilZero.string_of_int (Z.to_int n).

(** The operand under [%v] before padding. *)
Definition plain (a : arg) : string :=
  match a with
  | ArgString s => s
  | ArgInt n => itoa n
  end.

Definition isDigit (c : ascii) : bool :=
  let n := nat_of_ascii c in ((48 <=? n) && (n <=? 57))%nat.

Definition digitVal (c : ascii) : N := (N_of_ascii c - 48)%N.

Definition isLetter (c : ascii) : bool :=
  let n := nat_of_ascii c in
  (((65 <=? n) && (n <=? 90)) || ((97 <=? n) && (n <=? 122)))%nat.

Fixpoint isASCII (s : string) : bool :=
  match s with
  | EmptyString => true
  | String c rest => (nat_of_ascii c <? 128)%nat && isASCII rest
  end.

Fixpoint spaces (n : nat) : string :=
  match n with
  | O => ""
  | S k => String " " (spaces k)
  end.

(** [fmt.pad] / [fmt.padString] with no flag set: left padding with
    spaces up to the width, counted in runes.  The rune count is the
    byte count for an ASCII string; other strings under a width are
    outside the model ([None]). *)
Definition pad (wid : option N) (s : string) : option string :=
  match wid with
  | None | Some N0 => Some s
  | Some w =>
      if isASCII s
      then Some (spaces (N.to_nat w - String.length s) ++ s)
      else None
  end.

(** [badVerb]: [%!verb(type=value)], the value printed under [%v] with
    the directive's width still in force. *)
Definition badVerb (wid : option N) (a : arg) (verb : ascii) : option string :=
  option_map
    (fun v => "%!" ++ String verb "(" ++ typeName a ++ "=" ++ v ++ ")")
    (pad wid (plain a)).

Definition oneOf (c : ascii) (set : string) : bool := strings.ContainsByte set c.

(** [printArg]: one operand under one verb.  [%T] prints the type;
    strings take [%s] and [%v], ints [%d] and [%v]; the other verbs
    that are valid for the operand's type ([%x], [%q], ...) are outside
    the model; any remaining verb is a bad verb. *)
Definition printArg (wid : option N) (a : arg) (verb : ascii) : option string :=
  if (verb =? "T")%char then pad wid (typeName a)
  else
    match a with
    | ArgString s =>
        if oneOf verb "sv" then pad wid s
        else if oneOf verb "xXq" then None
        else badVerb wid a verb
    | ArgInt n =>
        if oneOf verb "dv" then pad wid (itoa n)
        else if oneOf verb "bcoOqxXU" then None
        else badVerb wid a verb
    end.

(** The operands left over when the format is exhausted:
    [%!(EXTRA type=value, ...)]. *)
Fixpoint extraList (a : list arg) : string :=
  match a with
  | [] => ""
  | [x] => typeName x ++ "=" ++ plain x
  | x :: rest => typeName x ++ "=" ++ plain x ++ ", " ++ extraList rest
  end.

Definition extra (a : list arg) : string :=
  match a with
  | [] => ""
  | _ => "%!(EXTRA " ++ extraList a ++ ")"
  end.

(** Where the scanner of [doPrintf] stands: in literal text, or inside
    a directive after [%] with the width digits read so far. *)
Inductive scan : Type :=
| Text
| Directive (wid : option N).

(** [doPrintf], one byte of the format at a time.  Modelled: literal
    text, [%%], a verb that is an ASCII letter, optionally preceded by
    a width written in digits (at most [1e6]).  Flags, precision, [*],
    argument indexes and non-letter verbs give [None]. *)
Fixpoint doPrintf (st : scan) (format : string) (a : list arg) : option string :=
  match format with
  | EmptyString =>
      match st with
      | Text => Some (extra a)
      | Directive _ => Some ("%!(NOVERB)" ++ extra a)
      end
  | String c rest =>
      match st with
      | Text =>
          if (c =? "%")%char then doPrintf (Directive None) rest a
          else option_map (String c) (doPrintf Text rest a)
      | Directive wid =>
          if isDigit c then
            match wid with
            | None =>
                if (c =? "0")%char then None
                else doPrintf (Directive (Some (digitVal c))) rest a
            | Some n =>
                let n' := (10 * n + digitVal c)%N in
                if (1000000 <? n')%N then None
                else doPrintf (Directive (Some n')) rest a
            end
          else if (c =? "%")%char then
            option_map (String "%") (doPrintf Text rest a)
          else if isLetter c then
            match a with
            | [] =>
                option_map (append ("%!" ++ String c "(MISSING)"))
                           (doPrintf Text rest [])
            | x :: a' =>
                match printArg wid x c with
                | Some s => option_map (append s) (doPrintf Text rest a')
                | None => None
                end
            end
          else None
      end
  end.

End fmt.

(** ** Data model *)

(** An error value, identified by its [Error()] text. *)
Definition error : Type := string.

(** [time.Duration]: a count of nanoseconds. *)
Module time.
Definition Duration : Type := Z.
Definition Nanosecond : Duration := 1.
Definition Millisecond : Duration := 1000000 * Nanosecond.
Definition Second : Duration := 1000 * Millisecond.

(** A [time.Ticker]: its period and whether [Stop] was called on it. *)
Record Ticker : Type := mkTicker { period : Duration; stopped : bool }.

(** [time.NewTicker] panics unless the period is positive. *)
Definition NewTicker (d : Duration) : option Ticker :=
  if d <=? 0 then None else Some (mkTicker d false).
End time.

Module Registrant.
(** [Registrant]: one entry of the registry, the payload of register
    and deregister and the answer of query. *)
Record t : Type := mk { Id : string; Address : string }.

(** [Registrant{}] *)
Definition zero : t := mk "" "".
End Registrant.

Module http.

Inductive Method : Type := MethodGet | MethodPost | MethodPut | MethodDelete.

Record Request : Type := mkRequest {
  ReqMethod : Method;
  URL : string;
  Header : list (string * string);
  Body : option string
}.

Record Response : Type := mkResponse {
  StatusCode : Z;
  RespBody : string
}.

(** [http.Client], with the two fields the package sets.  [T] is the
    type of [http.Transport] values. *)
Record Client (T : Type) : Type := mkClient {
  Timeout : time.Duration;
  Transport : option T
}.
Arguments mkClient {T}.
Arguments Timeout {T}.
Arguments Transport {T}.

(** [Header.Add] *)
Definition HeaderAdd (r : Request) (key value : string) : Request :=
  mkRequest (ReqMethod r) (URL r) (Header r ++ [(key, value)]) (Body r).

End http.

(** What the package takes from the Go standard library and from the
    network. *)
Class Platform : Type := {
  (** [http.Transport] values *)
  Transport : Type;
  (** the state of the network and of the registry behind it *)
  Net : Type;
  (** [url.Parse]: the error of a URL that is rejected *)
  url_Parse : string -> option error;
  (** [json.Marshal] of a [Registrant] *)
  json_Marshal : Registrant.t -> error + string;
  (** [json.NewDecoder(body).Decode] into a [Registrant] *)
  json_Decode : string -> error + Registrant.t;
  (** one round trip of [http.Client.Do] *)
  http_Do : http.Client Transport -> http.Request -> Net ->
            (error + http.Response) * Net;
  (** [fmt.Sprintf] on the directives [fmt.doPrintf] leaves out *)
  fmt_other : string -> list fmt.arg -> string
}.

Section Maestro.

Context {P : Platform}.

(** [fmt.Sprintf] and [fmt.Errorf] *)
Definition Sprintf (format : string) (a : list fmt.arg) : string :=
  match fmt.doPrintf fmt.Text format a with
  | Some s => s
  | None => fmt_other format a
  end.

Definition Errorf (format : string) (a : list fmt.arg) : error :=
  Sprintf format a.

(** [http.NewRequest] with one of the method constants: it fails when
    the URL does not parse. *)
Definition NewRequest (method : http.Method) (url : string)
           (body : option string) : error + http.Request :=
  match url_Parse url with
  | Some err => inl err
  | None => inr (http.mkRequest method url [] body)
  end.

(** *** The world the calls act on *)

Record World : Type := mkWorld {
  net : Net;
  (** the requests handed to [Do], oldest first *)
  dispatched : list http.Request;
  (** the lines written by [fmt.Println], oldest first *)
  stdout : list string
}.

Definition M (A : Type) : Type := World -> A * World.

Definition ret {A} (a : A) : M A := fun w => (a, w).

Definition bind {A B} (m : M A) (k : A -> M B) : M B :=
  fun w => let (a, w') := m w in k a w'.

Notation "x <- m ;; k" := (bind m (fun x => k))
  (at level 61, m at next level, right associativity).

(** [Do] of [http.Client]: the request is handed to the network. *)
Definition Do (hc : http.Client Transport) (req : http.Request)
  : M (error + http.Response) :=
  fun w =>
    let (r, n) := http_Do hc req (net w) in
    (r, mkWorld n (dispatched w ++ [req]) (stdout w)).

(** [fmt.Println] *)
Definition Println (line : string) : M unit :=
  fun w => (tt, mkWorld (net w) (dispatched w) (stdout w ++ [line])).

(** *** Types and constants of the package *)

Record ClientConfig : Type := mkClientConfig {
  cfgTimeout : time.Duration;
  cfgTransport : option Transport
}.

Definition Route : Type := string.

Definition authHeader : string := "X-Registry-Token".
Definition apiPrefix : string := "/api/v1".
Definition register : Route := "/register".
Definition deregister : Route := "/deregister".
Definition ping : Route := "/ping".
Definition query : Route := "/query?id=%s".

End Maestro.

Module Client.
Record t {P : Platform} : Type := mk {
  BaseUrl : string;
  AuthToken : string;
  Id : string;
  Client : http.Client Transport
}.
End Client.

Section Operations.

Context {P : Platform}.

Notation "x <- m ;; k" := (bind m (fun x => k))
  (at level 61, m at next level, right associativity).

(** [New] *)
Definition New (baseUrl token id : string) (config : option ClientConfig)
  : Client.t :=
  let httpClient := http.mkClient (3 * time.Second) None in
  let httpClient :=
    match config with
    | Some cfg =>
        let httpClient :=
          if cfgTimeout cfg >? 10 * time.Millisecond
          then http.mkClient (cfgTimeout cfg) (http.Transport httpClient)
          else httpClient in
        match cfgTransport cfg with
        | Some tr => http.mkClient (http.Timeout httpClient) (Some tr)
        | None => httpClient
        end
    | None => httpClient
    end in
  Client.mk P (strings.TrimSuffix baseUrl "/") token id httpClient.

Definition addAuthHeader (c : Client.t) (r : http.Request) : http.Request :=
  http.HeaderAdd r authHeader (Client.AuthToken c).

Definition getUrl (c : Client.t) (r : Route) : string :=
  Client.BaseUrl c ++ apiPrefix ++ r.

(** [Register] *)
Definition Register (c : Client.t) (address : string) : M (option error) :=
  let reg := Registrant.mk (Client.Id c) address in
  match json_Marshal reg with
  | inl err => ret (Some err)
  | inr regJson =>
      match NewRequest http.MethodPost (getUrl c register) (Some regJson) with
      | inl err => ret (Some err)
      | inr req =>
          let req := addAuthHeader c req in
          r <- Do (Client.Client c) req ;;
          match r with
          | inl err => ret (Some err)
          | inr resp =>
              if http.StatusCode resp >=? 400
              then ret (Some (Errorf "received non-success status code (%d)"
                                     [fmt.ArgInt (http.StatusCode resp)]))
              else ret None
          end
      end
  end.

(** [Deregister] *)
Definition Deregister (c : Client.t) : M (option error) :=
  let reg := Registrant.mk (Client.Id c) "" in
  match json_Marshal reg with
  | inl err => ret (Some err)
  | inr regJson =>
      match NewRequest http.MethodDelete (getUrl c deregister) (Some regJson) with
      | inl err => ret (Some err)
      | inr req =>
          let req := addAuthHeader c req in
          r <- Do (Client.Client c) req ;;
          match r with
          | inl err => ret (Some err)
          | inr resp =>
              if http.StatusCode resp >=? 400
              then ret (Some (Errorf "received non-success status code (%d)"
                                     [fmt.ArgInt (http.StatusCode resp)]))
              else ret None
          end
      end
  end.

(** [Ping] *)
Definition Ping (c : Client.t) : M (option error) :=
  match NewRequest http.MethodPut
          (Sprintf "%s?id=%s"
             [fmt.ArgString (getUrl c ping); fmt.ArgString (Client.Id c)])
          None with
  | inl err => ret (Some err)
  | inr req =>
      let req := addAuthHeader c req in
      r <- Do (Client.Client c) req ;;
      match r with
      | inl err => ret (Some err)
      | inr resp =>
          if http.StatusCode resp >=? 400
          then ret (Some (Errorf "received non-success status code (%d)"
                                 [fmt.ArgInt (http.StatusCode resp)]))
          else ret None
      end
  end.

(** [Query] *)
Definition Query (c : Client.t) (id : string)
  : M (Registrant.t * option error) :=
  match NewRequest http.MethodGet
          (Sprintf (getUrl c query) [fmt.ArgString id]) None with
  | inl err =>
      ret (Registrant.zero,
           Some (Errorf "could not create request: %s" [fmt.ArgString err]))
  | inr req =>
      let req := addAuthHeader c req in
      r <- Do (Client.Client c) req ;;
      match r with
      | inl err =>
          ret (Registrant.zero,
               Some (Errorf "could not execute query request: %s"
                            [fmt.ArgString err]))
      | inr resp =>
          match json_Decode (http.RespBody resp) with
          | inl err =>
              ret (Registrant.zero,
                   Some (Errorf "could not decode JSON: %s" [fmt.ArgString err]))
          | inr entry => ret (entry, None)
          end
      end
  end.

End Operations.

(** ** The liveness loop *)

(** The case the [select] statement of [StartPing] takes in one
    iteration: [<-ctx.Done()], [<-t.C], or [default] when neither channel
    is ready.  An execution of the loop is the sequence of these. *)
Inductive Select : Type := SelDone | SelTick | SelDefault.

Inductive Phase : Type := Running | Stopped.

Section Liveness.

Context {P : Platform}.

Record Loop : Type := mkLoop {
  phase : Phase;
  (** the ticker [t] the loop created *)
  ticker : time.Ticker;
  (** what each call of [Ping] returned, oldest first *)
  beats : list (option error);
  world : World
}.

(** The body of [case <-t.C]. *)
Definition tick (c : Client.t) (l : Loop) : Loop :=
  let (err, w) := Ping c (world l) in
  let w :=
    match err with
    | Some e => snd (Println ("ping error: " ++ e) w)
    | None => w
    end in
  mkLoop (phase l) (ticker l) (beats l ++ [err]) w.

(** The [for { select { ... } }] of [StartPing] along an execution. *)
Fixpoint pingLoop (c : Client.t) (sched : list Select) (l : Loop) : Loop :=
  match sched with
  | [] => l
  | SelDone :: _ => mkLoop Stopped (ticker l) (beats l) (world l)
  | SelTick :: rest => pingLoop c rest (tick c l)
  | SelDefault :: rest => pingLoop c rest l
  end.

(** [StartPing]; [None] is the panic of [time.NewTicker]. *)
Definition StartPing (c : Client.t) (interval : time.Duration)
           (sched : list Select) (w : World) : option Loop :=
  match time.NewTicker interval with
  | None => None
  | Some t => Some (pingLoop c sched (mkLoop Running t [] w))
  end.

(** The number of iterations of an execution that take [<-t.C]. *)
Fixpoint ticks (sched : list Select) : nat :=
  match sched with
  | [] => O
  | SelTick :: rest => S (ticks rest)
  | _ :: rest => ticks rest
  end.

End Liveness.

(** ** The earlier revision of the package

    The revision without a per-identifier query differs from the above in
    [New] and in [ping]; these two are kept here for comparison. *)
Module Legacy.
Section Legacy.

Context {P : Platform}.

Record Client : Type := mkClient {
  baseUrl : string;
  authToken : string;
  id : string;
  client : http.Client Transport
}.

Definition New (baseUrl token id : string) (config : option ClientConfig)
  : Client :=
  let httpClient := http.mkClient (3 * time.Second) None in
  let httpClient :=
    match config with
    | Some cfg =>
        let httpClient :=
          http.mkClient (cfgTimeout cfg) (http.Transport httpClient) in
        match cfgTransport cfg with
        | Some tr => http.mkClient (http.Timeout httpClient) (Some tr)
        | None => httpClient
        end
    | None => httpClient
    end in
  mkClient (strings.TrimSuffix baseUrl "/") token id httpClient.

Definition addAuthHeader (c : Client) (r : http.Request) : http.Request :=
  http.HeaderAdd r authHeader (authToken c).

Definition getUrl (c : Client) (r : Route) : string :=
  baseUrl c ++ apiPrefix ++ r.

Definition ping (c : Client) : M (option error) :=
  match NewRequest http.MethodPut (getUrl c ping) None with
  | inl err => ret (Some err)
  | inr req =>
      let req := addAuthHeader c req in
      bind (Do (client c) req) (fun r =>
      match r with
      | inl err => ret (Some err)
      | inr resp =>
          if http.StatusCode resp >=? 400
          then ret (Some (Errorf "received non-success status code (%d)"
                                 [fmt.ArgInt (http.StatusCode resp)]))
          else ret None
      end)
  end.

(** *** The other exchanges of the earlier revision *)

(** [json.MarshalIndent] of a [Registrant], with its prefix and indent. *)
Variable json_MarshalIndent : Registrant.t -> string -> string -> error + string.

(** The values of [map[string]string]; the nil map is [None]. *)
Variable Entries : Type.

(** [json.NewDecoder(body).Decode] into a [map[string]string] that
    starts out nil. *)
Variable json_DecodeEntries : string -> error + option Entries.

Definition query : Route := "/query".

Definition Register (c : Client) (address : string) : M (option error) :=
  let reg := Registrant.mk (id c) address in
  match json_MarshalIndent reg "" "  " with
  | inl err => ret (Some err)
  | inr regJson =>
      match NewRequest http.MethodPost (getUrl c register) (Some regJson) with
      | inl err => ret (Some err)
      | inr req =>
          let req := addAuthHeader c req in
          bind (Do (client c) req) (fun r =>
          match r with
          | inl err => ret (Some err)
          | inr resp =>
              if http.StatusCode resp >=? 400
              then ret (Some (Errorf "received non-success status code (%d)"
                                     [fmt.ArgInt (http.StatusCode resp)]))
              else ret None
          end)
      end
  end.

Definition Deregister (c : Client) : M (option error) :=
  let reg := Registrant.mk (id c) "" in
  match json_MarshalIndent reg "" "  " with
  | inl err => ret (Some err)
  | inr regJson =>
      match NewRequest http.MethodPost (getUrl c deregister) (Some regJson) with
      | inl err => ret (Some err)
      | inr req =>
          let req := addAuthHeader c req in
          bind (Do (client c) req) (fun r =>
          match r with
          | inl err => ret (Some err)
          | inr resp =>
              if http.StatusCode resp >=? 400
              then ret (Some (Errorf "received non-success status code (%d)"
                                     [fmt.ArgInt (http.StatusCode resp)]))
              else ret None
          end)
      end
  end.

(** [Query] of the earlier revision: all entries of the registry. *)
Definition Query (c : Client) : M (option Entries * option error) :=
  match NewRequest http.MethodGet (getUrl c query) None with
  | inl err => ret (None, Some err)
  | inr req =>
      let req := addAuthHeader c req in
      bind (Do (client c) req) (fun r =>
      match r with
      | inl err => ret (None, Some err)
      | inr resp =>
          match json_DecodeEntries (http.RespBody resp) with
          | inl err => ret (None, Some err)
          | inr entries => ret (entries, None)
          end
      end)
  end.

End Legacy.
End Legacy.

(** ** Observing a call *)

Section Observation.

Context {P : Platform}.

(** The requests a computation hands to the network when run from
    [w]: what it appends to the log of dispatched requests. *)
Definition sent {A : Type} (m : M A) (w : World) : list http.Request :=
  skipn (List.length (dispatched w)) (dispatched (snd (m w))).

(** The value a computation returns when run from [w]. *)
Definition result {A : Type} (m : M A) (w : World) : A := fst (m w).

(** The world after registering under each address of [addrs] in turn. *)
Fixpoint registerAll (c : Client.t) (addrs : list string) (w : World) : World :=
  match addrs with
  | [] => w
  | a :: rest => registerAll c rest (snd (Register c a w))
  end.

(** The stage of [Query] an error text names. *)
Inductive Stage : Type := BuildRequest | ExecuteRequest | DecodeResponse.

Definition stageOf (e : error) : option Stage :=
  if prefix "could not create request: " e then Some BuildRequest
  else if prefix "could not execute query request: " e then Some ExecuteRequest
  else if prefix "could not decode JSON: " e then Some DecodeResponse
  else None.

(** The verdict on a response: the error for a status code of 400 or
    more. *)
Definition statusError (resp : http.Response) : option error :=
  if http.StatusCode resp >=? 400
  then Some (Errorf "received non-success status code (%d)"
                    [fmt.ArgInt (http.StatusCode resp)])
  else None.

(** What an exchange returns for what [Do] returned: the transport
    error, or the verdict on the status code. *)
Definition outcome (r : error + http.Response) : option error :=
  match r with
  | inl err => Some err
  | inr resp => statusError resp
  end.

End Observation.

(** ** Reading an execution of the loop *)

Section Executions.

Context {P : Platform}.

(** The iterations of an execution up to the first [<-ctx.Done()]. *)
Fixpoint untilDone (sched : list Select) : list Select :=
  match sched with
  | [] => []
  | SelDone :: _ => []
  | s :: rest => s :: untilDone rest
  end.

(** An execution without its [default] iterations. *)
Fixpoint busy (sched : list Select) : list Select :=
  match sched with
  | [] => []
  | SelDefault :: rest => busy rest
  | s :: rest => s :: busy rest
  end.

(** The errors among the results of the heartbeats, oldest first. *)
Fixpoint failures (results : list (option error)) : list error :=
  match results with
  | [] => []
  | Some e :: rest => e :: failures rest
  | None :: rest => failures rest
  end.

(** The request of a heartbeat of client [c]. *)
Definition pingRequest (c : Client.t) : http.Request :=
  http.mkRequest http.MethodPut
    (Client.BaseUrl c ++ "/api/v1/ping?id=" ++ Client.Id c)
    [("X-Registry-Token", Client.AuthToken c)] None.

(** What a computation may do to the world: nothing at all, with an
    error as result when [failed] holds of it, or one round trip of
    [req] through the client [hc], printing nothing. *)
Definition roundTripOrNothing {A : Type} (hc : http.Client Transport)
           (failed : A -> Prop) (m : M A) (w : World) : Prop :=
  (sent m w = [] /\ snd (m w) = w /\ failed (result m w)) \/
  (exists req,
      sent m w = [req] /\
      snd (m w) =
      mkWorld (snd (http_Do hc req (net w))) (dispatched w ++ [req]) (stdout w)).

(** [n] calls of [Ping] one after the other, with their results. *)
Fixpoint pingTimes (c : Client.t) (n : nat) : M (list (option error)) :=
  match n with
  | O => ret []
  | S k =>
      bind (Ping c) (fun e =>
      bind (pingTimes c k) (fun es => ret (e :: es)))
  end.

End Executions.

(** ** A scripted platform

    A transport that serves a prepared list of outcomes, one per request,
    and refuses the connection once the list is used up. *)
Module Mock.

Definition quote (s : string) : string :=
  String "034" (s ++ String "034" "").

Definition marshal (r : Registrant.t) : string :=
  "{" ++ quote "id" ++ ":" ++ quote (Registrant.Id r) ++ ","
      ++ quote "address" ++ ":" ++ quote (Registrant.Address r) ++ "}".

Definition svc_b : Registrant.t := Registrant.mk "svc-b" "http://10.0.0.2:9000".

Definition platform : Platform := {|
  Transport := unit;
  Net := list (error + http.Response);
  url_Parse := fun u =>
    if strings.ContainsByte u "010"
    then Some "net/url: invalid control character in URL"
    else None;
  json_Marshal := fun r => inr (marshal r);
  json_Decode := fun body =>
    if (body =? marshal svc_b)%string then inr svc_b
    else inl "unexpected end of JSON input";
  http_Do := fun _ _ script =>
    match script with
    | [] => (inl "dial tcp: connection refused", [])
    | r :: rest => (r, rest)
    end;
  fmt_other := fun _ _ => ""
|}.

Definition serving (script : list (error + http.Response)) : @World platform :=
  @mkWorld platform script [] [].

Definition respond (code : Z) (body : string) : error + http.Response :=
  inr (http.mkResponse code body).

Definition client : @Client.t platform :=
  @New platform "http://svc:8080/" "secret" "svc-a" None.

Definition addr : string := "http://10.0.0.1:80".

(** A registry that answers 500 to the first request and 200 to the
    second. *)
Definition failing : list (error + http.Response) :=
  [respond 500 ""; respond 200 ""].

End Mock.

(** The pieces of the earlier revision on the scripted platform. *)
Module MockLegacy.

Definition marshalIndent (r : Registrant.t) (prefix indent : string)
  : error + string :=
  inr (prefix ++ "{" ++ indent ++ Mock.quote "id" ++ ": "
         ++ Mock.quote (Registrant.Id r) ++ "," ++ indent
         ++ Mock.quote "address" ++ ": "
         ++ Mock.quote (Registrant.Address r) ++ "}").

Definition Entries : Type := list (string * string).

Definition decodeEntries (body : string) : error + option Entries :=
  if (body =? "null")%string then inr None
  else if (body =? "{}")%string then inr (Some [])
  else inl "invalid character '<' looking for beginning of value".

Definition client : @Legacy.Client Mock.platform :=
  @Legacy.New Mock.platform "http://svc:8080/" "secret" "svc-a" None.

End MockLegacy.

(** Executions and clients for the loop on the scripted platform. *)
Module MockRuns.

(** Two ticks with idle iterations between them, then cancellation
    with a tick still pending. *)
Definition run : list Select :=
  [SelDefault; SelTick; SelDefault; SelTick; SelDone; SelTick].

(** A client whose identifier holds a line feed: its heartbeat URL is
    rejected. *)
Definition broken : @Client.t Mock.platform :=
  @New Mock.platform "http://svc:8080/" "secret" (String "010" "svc-a") None.

End MockRuns.

(** * Properties *)

(** ** Strings *)

Section StringFacts.

Lemma append_nil_r (s : string) : s ++ "" = s.
Proof. induction s as [|c s IH]; simpl; [reflexivity | now rewrite IH]. Qed.

Lemma append_assoc (s t u : string) : (s ++ t) ++ u = s ++ t ++ u.
Proof. induction s as [|c s IH]; simpl; [reflexivity | now rewrite IH]. Qed.

Lemma length_append (s t : string) :
  String.length (s ++ t) = (String.length s + String.length t)%nat.
Proof. induction s as [|c s IH]; simpl; [reflexivity | now rewrite IH]. Qed.

Lemma substring_all (s : string) : substring 0 (String.length s) s = s.
Proof. induction s as [|c s IH]; simpl; [reflexivity | now rewrite IH]. Qed.

Lemma substring_head (s t : string) :
  substring 0 (String.length s) (s ++ t) = s.
Proof.
  induction s as [|c s IH]; simpl.
  - now destruct t.
  - now rewrite IH.
Qed.

Lemma substring_tail (s t : string) :
  substring (String.length s) (String.length t) (s ++ t) = t.
Proof.
  induction s as [|c s IH]; simpl; [apply substring_all | exact IH].
Qed.

Lemma substring_split (n : nat) (s : string) :
  (n <= String.length s)%nat ->
  substring 0 n s ++ substring n (String.length s - n) s = s.
Proof.
  revert n; induction s as [|c s IH]; intros [|n] Hn; simpl in *.
  - reflexivity.
  - lia.
  - now rewrite substring_all.
  - rewrite IH by lia. reflexivity.
Qed.

Lemma HasSuffix_append (p suffix : string) :
  strings.HasSuffix (p ++ suffix) suffix = true.
Proof.
  unfold strings.HasSuffix. rewrite length_append.
  apply andb_true_intro; split.
  - apply Nat.leb_le; lia.
  - replace (String.length p + String.length suffix - String.length suffix)%nat
      with (String.length p) by lia.
    rewrite substring_tail. apply String.eqb_refl.
Qed.

Lemma HasSuffix_split (s suffix : string) :
  strings.HasSuffix s suffix = true ->
  s = substring 0 (String.length s - String.length suffix) s ++ suffix.
Proof.
  unfold strings.HasSuffix. intros H.
  apply andb_prop in H as [Hlen Heq].
  apply Nat.leb_le in Hlen. apply String.eqb_eq in Heq.
  pose proof (substring_split (String.length s - String.length suffix) s) as Hs.
  replace (String.length s - (String.length s - String.length suffix))%nat
    with (String.length suffix) in Hs by lia.
  rewrite Heq in Hs. symmetry. apply Hs. lia.
Qed.

Lemma TrimSuffix_append (p suffix : string) :
  strings.TrimSuffix (p ++ suffix) suffix = p.
Proof.
  unfold strings.TrimSuffix. rewrite HasSuffix_append, length_append.
  replace (String.length p + String.length suffix - String.length suffix)%nat
    with (String.length p) by lia.
  apply substring_head.
Qed.

Lemma append_inj_r (p q s : string) : p ++ s = q ++ s -> p = q.
Proof.
  revert q; induction p as [|a p IH]; intros [|b q] H; simpl in *.
  - reflexivity.
  - apply (f_equal String.length) in H. simpl in H.
    rewrite length_append in H. lia.
  - apply (f_equal String.length) in H. simpl in H.
    rewrite length_append in H. lia.
  - injection H as -> H. f_equal. now apply IH.
Qed.

(** [TrimSuffix] removes the suffix once when it is there and is the
    identity otherwise. *)
Lemma TrimSuffix_cases (s suffix : string) :
  s = strings.TrimSuffix s suffix ++ suffix \/
  (strings.TrimSuffix s suffix = s /\ forall p, s <> p ++ suffix).
Proof.
  unfold strings.TrimSuffix.
  destruct (strings.HasSuffix s suffix) eqn:H.
  - left. now apply HasSuffix_split.
  - right. split; [reflexivity|].
    intros p ->. now rewrite HasSuffix_append in H.
Qed.

End StringFacts.

(** ** Formatting *)

Section FmtFacts.

Context {P : Platform}.

Example itoa_status : fmt.itoa 404 = "404" /\ fmt.itoa 0 = "0" /\ fmt.itoa (-7) = "-7".
Proof. repeat split. Qed.

Example doPrintf_missing :
  fmt.doPrintf fmt.Text "%s and %s" [fmt.ArgString "a"] =
  Some "a and %!s(MISSING)".
Proof. reflexivity. Qed.

Example doPrintf_extra :
  fmt.doPrintf fmt.Text "100%% of %d" [fmt.ArgInt 5; fmt.ArgString "x"] =
  Some "100% of 5%!(EXTRA string=x)".
Proof. reflexivity. Qed.

Example doPrintf_bad_verb :
  fmt.doPrintf fmt.Text "%d|%6s|%6d|%" [fmt.ArgString "hi"; fmt.ArgString "hi"; fmt.ArgString "hi"] =
  Some "%!d(string=hi)|    hi|%!d(string=    hi)|%!(NOVERB)".
Proof. reflexivity. Qed.

(** Two ints with the same decimal rendering are the same int. *)
Lemma itoa_inj (a b : Z) : fmt.itoa a = fmt.itoa b -> a = b.
Proof.
  unfold fmt.itoa. intros H.
  assert (Hnil : forall z, Z.to_int z <> Decimal.Pos Decimal.Nil /\
                           Z.to_int z <> Decimal.Neg Decimal.Nil).
  { intros [|p|p]; simpl; split; try discriminate;
      intros [= Hp]; now apply (DecimalPos.Unsigned.to_uint_nonnil p). }
  apply DecimalZ.to_int_inj.
  assert (Hsome : Some (Z.to_int a) = Some (Z.to_int b)).
  { rewrite <- (NilZero.isi (Z.to_int a)) by apply Hnil.
    rewrite <- (NilZero.isi (Z.to_int b)) by apply Hnil.
    now rewrite H. }
  now injection Hsome.
Qed.

(** Literal text in front of a format is copied to the output. *)
Lemma doPrintf_text (pre rest : string) (a : list fmt.arg) :
  strings.ContainsByte pre "%" = false ->
  fmt.doPrintf fmt.Text (pre ++ rest) a =
  option_map (append pre) (fmt.doPrintf fmt.Text rest a).
Proof.
  induction pre as [|c pre IH]; simpl; intros H.
  - now destruct (fmt.doPrintf fmt.Text rest a).
  - apply orb_false_elim in H as [Hc Hpre].
    rewrite Hc, (IH Hpre).
    now destruct (fmt.doPrintf fmt.Text rest a).
Qed.

Lemma doPrintf_s (x : string) :
  fmt.doPrintf fmt.Text "%s" [fmt.ArgString x] = Some x.
Proof. cbn. now rewrite append_nil_r. Qed.

(** A format that is literal text followed by [%s], with one string. *)
Lemma Sprintf_text_s (pre x : string) :
  strings.ContainsByte pre "%" = false ->
  Sprintf (pre ++ "%s") [fmt.ArgString x] = pre ++ x.
Proof.
  intros H. unfold Sprintf.
  now rewrite (doPrintf_text _ _ _ H), doPrintf_s.
Qed.

Lemma Sprintf_status (n : Z) :
  Sprintf "received non-success status code (%d)" [fmt.ArgInt n] =
  "received non-success status code (" ++ fmt.itoa n ++ ")".
Proof. unfold Sprintf. cbn. reflexivity. Qed.

Lemma Sprintf_ping (u i : string) :
  Sprintf "%s?id=%s" [fmt.ArgString u; fmt.ArgString i] = u ++ "?id=" ++ i.
Proof. unfold Sprintf. cbn. now rewrite append_nil_r. Qed.

Lemma ContainsByte_append (s t : string) (c : ascii) :
  strings.ContainsByte (s ++ t) c =
  strings.ContainsByte s c || strings.ContainsByte t c.
Proof.
  induction s as [|x s IH]; simpl; [reflexivity|].
  now rewrite IH, orb_assoc.
Qed.

End FmtFacts.

(** ** Construction and URLs *)

Section Construction.

Context {P : Platform}.

Lemma New_BaseUrl baseUrl token id config :
  Client.BaseUrl (New baseUrl token id config) = strings.TrimSuffix baseUrl "/".
Proof. reflexivity. Qed.

Lemma New_Timeout_nil baseUrl token id :
  http.Timeout (Client.Client (New baseUrl token id None)) = 3 * time.Second.
Proof. reflexivity. Qed.

Lemma New_Timeout baseUrl token id cfg :
  http.Timeout (Client.Client (New baseUrl token id (Some cfg))) =
  if cfgTimeout cfg >? 10 * time.Millisecond
  then cfgTimeout cfg else 3 * time.Second.
Proof.
  unfold New. destruct (cfgTimeout cfg >? 10 * time.Millisecond);
    destruct (cfgTransport cfg); reflexivity.
Qed.

(** The override is ignored at the floor itself. *)
Lemma New_Timeout_at_floor baseUrl token id tr :
  http.Timeout (Client.Client
    (New baseUrl token id
         (Some (mkClientConfig (10 * time.Millisecond) tr)))) =
  3 * time.Second.
Proof. now rewrite New_Timeout. Qed.

(** The earlier revision has no floor: any override is taken. *)
Lemma Legacy_New_Timeout baseUrl token id cfg :
  http.Timeout (Legacy.client (Legacy.New baseUrl token id (Some cfg))) =
  cfgTimeout cfg.
Proof. unfold Legacy.New. now destruct (cfgTransport cfg). Qed.

(** C2: a timeout override below the floor of 10ms leaves the default
    of 3s in effect, an override above the floor replaces the default;
    [New] is a total function, and the client it returns carries the
    token and identifier it was given. *)
Theorem New_timeout_floor (baseUrl token id : string) (cfg : ClientConfig) :
  (cfgTimeout cfg < 10 * time.Millisecond ->
   http.Timeout (Client.Client (New baseUrl token id (Some cfg))) =
   3 * time.Second) /\
  (cfgTimeout cfg > 10 * time.Millisecond ->
   http.Timeout (Client.Client (New baseUrl token id (Some cfg))) =
   cfgTimeout cfg) /\
  Client.AuthToken (New baseUrl token id (Some cfg)) = token /\
  Client.Id (New baseUrl token id (Some cfg)) = id.
Proof.
  rewrite New_Timeout.
  repeat split.
  - intros H. destruct (Z.gtb_spec (cfgTimeout cfg) (10 * time.Millisecond));
      [lia | reflexivity].
  - intros H. destruct (Z.gtb_spec (cfgTimeout cfg) (10 * time.Millisecond));
      [reflexivity | lia].
Qed.

Lemma getUrl_New baseUrl token id config (r : Route) :
  getUrl (New baseUrl token id config) r =
  strings.TrimSuffix baseUrl "/" ++ "/api/v1" ++ r.
Proof. reflexivity. Qed.

End Construction.

(** The scenario of C2: 5ms is ignored, 5s is taken. *)
Lemma New_timeout_floor_witness :
  http.Timeout (Client.Client
    (@New Mock.platform "http://svc:8080/" "secret" "svc-a"
          (Some (mkClientConfig (5 * time.Millisecond) None)))) =
  3 * time.Second /\
  http.Timeout (Client.Client
    (@New Mock.platform "http://svc:8080/" "secret" "svc-a"
          (Some (mkClientConfig (5 * time.Second) None)))) =
  5 * time.Second.
Proof.
  split.
  - apply (proj1 (@New_timeout_floor Mock.platform "http://svc:8080/" "secret"
                    "svc-a" (mkClientConfig (5 * time.Millisecond) None))).
    reflexivity.
  - apply (proj1 (proj2 (@New_timeout_floor Mock.platform "http://svc:8080/"
                    "secret" "svc-a" (mkClientConfig (5 * time.Second) None)))).
    reflexivity.
Defined.

(** ** The exchanges *)

Section Exchanges.

Context {P : Platform}.

Lemma skipn_length_app {A : Type} (l l' : list A) :
  skipn (List.length l) (l ++ l')%list = l'.
Proof. induction l as [|x l IH]; simpl; [reflexivity | exact IH]. Qed.

(** One round trip followed by the check of the status code: the
    request is dispatched whatever comes back, the network moves on,
    nothing is printed. *)
Lemma exchange_run hc req w :
  bind (Do hc req)
       (fun r => match r with
                 | inl err => ret (Some err)
                 | inr resp =>
                     if http.StatusCode resp >=? 400
                     then ret (Some (Errorf "received non-success status code (%d)"
                                            [fmt.ArgInt (http.StatusCode resp)]))
                     else ret None
                 end) w =
  (outcome (fst (http_Do hc req (net w))),
   mkWorld (snd (http_Do hc req (net w))) (dispatched w ++ [req]) (stdout w)).
Proof.
  unfold bind, Do, ret.
  destruct (http_Do hc req (net w)) as [[err|resp] n]; simpl;
    [reflexivity|].
  unfold statusError. now destruct (http.StatusCode resp >=? 400).
Qed.

Lemma statusError_failure resp :
  400 <= http.StatusCode resp ->
  statusError resp =
  Some ("received non-success status code ("
          ++ fmt.itoa (http.StatusCode resp) ++ ")").
Proof.
  intros H. unfold statusError, Errorf.
  rewrite Sprintf_status.
  destruct (Z.geb_spec (http.StatusCode resp) 400); [reflexivity | lia].
Qed.

Lemma statusError_success resp :
  http.StatusCode resp < 400 -> statusError resp = None.
Proof.
  intros H. unfold statusError.
  destruct (Z.geb_spec (http.StatusCode resp) 400); [lia | reflexivity].
Qed.

(** The error text determines the status code. *)
Lemma statusError_code r1 r2 e :
  statusError r1 = Some e -> statusError r2 = Some e ->
  http.StatusCode r1 = http.StatusCode r2.
Proof.
  unfold statusError, Errorf. rewrite !Sprintf_status.
  destruct (http.StatusCode r1 >=? 400); [|discriminate].
  destruct (http.StatusCode r2 >=? 400); [|discriminate].
  intros [= <-] [= H]. simpl in H.
  apply itoa_inj.
  apply (append_inj_r _ _ ")"). symmetry.
  repeat (injection H as H). exact H.
Qed.

(** *** Register *)

(** C1: for every address, [Register] marshals the registrant made
    of the client's identifier and that address and, once the request
    is built, dispatches exactly one POST to the register endpoint with
    that payload and the token header; a response with status 400 or
    more gives the error naming the status code, a response below 400
    gives success. *)
Theorem Register_sends_and_checks_status
        (c : Client.t) (address : string) (w : World) (body : string) :
  json_Marshal (Registrant.mk (Client.Id c) address) = inr body ->
  url_Parse (Client.BaseUrl c ++ "/api/v1/register") = None ->
  sent (Register c address) w =
    [http.mkRequest http.MethodPost
       (Client.BaseUrl c ++ "/api/v1/register")
       [("X-Registry-Token", Client.AuthToken c)] (Some body)] /\
  forall resp n,
    http_Do (Client.Client c)
      (http.mkRequest http.MethodPost
         (Client.BaseUrl c ++ "/api/v1/register")
         [("X-Registry-Token", Client.AuthToken c)] (Some body))
      (net w) = (inr resp, n) ->
    (400 <= http.StatusCode resp ->
     result (Register c address) w =
     Some ("received non-success status code ("
             ++ fmt.itoa (http.StatusCode resp) ++ ")")) /\
    (http.StatusCode resp < 400 ->
     result (Register c address) w = None).
Proof.
  intros Hbody Hurl.
  unfold sent, result, Register, NewRequest.
  rewrite Hbody.
  change (getUrl c register) with (Client.BaseUrl c ++ "/api/v1/register").
  rewrite Hurl, exchange_run.
  split; [apply skipn_length_app|].
  intros resp n Hdo.
  change (addAuthHeader c ?r) with
    (http.mkRequest (http.ReqMethod r) (http.URL r)
       (http.Header r ++ [("X-Registry-Token", Client.AuthToken c)])
       (http.Body r)).
  simpl. rewrite Hdo. simpl.
  split; [apply statusError_failure | apply statusError_success].
Qed.

(** *** Deregister *)

Lemma Deregister_sent (c : Client.t) (w : World) (body : string) :
  json_Marshal (Registrant.mk (Client.Id c) "") = inr body ->
  url_Parse (Client.BaseUrl c ++ "/api/v1/deregister") = None ->
  sent (Deregister c) w =
    [http.mkRequest http.MethodDelete
       (Client.BaseUrl c ++ "/api/v1/deregister")
       [("X-Registry-Token", Client.AuthToken c)] (Some body)].
Proof.
  intros Hbody Hurl.
  unfold sent, Deregister, NewRequest.
  rewrite Hbody.
  change (getUrl c deregister) with (Client.BaseUrl c ++ "/api/v1/deregister").
  rewrite Hurl, exchange_run.
  apply skipn_length_app.
Qed.

(** C6: whatever was registered before, and however often
    [Deregister] ran before, a call of [Deregister] that gets to
    dispatch sends the same request: the marshalled registrant made of
    the client's identifier and the empty address. *)
Theorem Deregister_payload_fixed
        (c : Client.t) (w : World) (addrs : list string) (body : string) :
  json_Marshal (Registrant.mk (Client.Id c) "") = inr body ->
  url_Parse (Client.BaseUrl c ++ "/api/v1/deregister") = None ->
  sent (Deregister c) w =
    [http.mkRequest http.MethodDelete
       (Client.BaseUrl c ++ "/api/v1/deregister")
       [("X-Registry-Token", Client.AuthToken c)] (Some body)] /\
  sent (Deregister c) (registerAll c addrs w) = sent (Deregister c) w /\
  sent (Deregister c) (snd (Deregister c w)) = sent (Deregister c) w.
Proof.
  intros Hbody Hurl.
  rewrite !(Deregister_sent c _ body Hbody Hurl). auto.
Qed.

(** *** Ping *)

Lemma Ping_url (c : Client.t) :
  Sprintf "%s?id=%s"
    [fmt.ArgString (getUrl c ping); fmt.ArgString (Client.Id c)] =
  Client.BaseUrl c ++ "/api/v1/ping?id=" ++ Client.Id c.
Proof.
  rewrite Sprintf_ping. unfold getUrl, apiPrefix, ping.
  now rewrite !append_assoc.
Qed.

Lemma Ping_run (c : Client.t) (w : World) :
  Ping c w =
  match url_Parse (Client.BaseUrl c ++ "/api/v1/ping?id=" ++ Client.Id c) with
  | Some err => (Some err, w)
  | None =>
      let req := http.mkRequest http.MethodPut
                   (Client.BaseUrl c ++ "/api/v1/ping?id=" ++ Client.Id c)
                   [("X-Registry-Token", Client.AuthToken c)] None in
      (outcome (fst (http_Do (Client.Client c) req (net w))),
       mkWorld (snd (http_Do (Client.Client c) req (net w)))
               (dispatched w ++ [req]) (stdout w))
  end.
Proof.
  unfold Ping, NewRequest. rewrite Ping_url.
  destruct (url_Parse _); [reflexivity|].
  now rewrite exchange_run.
Qed.

Lemma Ping_dispatches (c : Client.t) (w : World) :
  Forall (fun req =>
            req = http.mkRequest http.MethodPut
                    (Client.BaseUrl c ++ "/api/v1/ping?id=" ++ Client.Id c)
                    [("X-Registry-Token", Client.AuthToken c)] None)
         (sent (Ping c) w).
Proof.
  unfold sent. rewrite Ping_run.
  destruct (url_Parse _) as [err|]; simpl.
  - rewrite skipn_all. constructor.
  - rewrite skipn_length_app. repeat constructor.
Qed.

(** C7: every request [Ping] dispatches is a PUT to the ping endpoint
    with no body, the token header, and [?id=] followed by the client's
    own identifier; once the URL parses, exactly one such request is
    dispatched. *)
Theorem Ping_request (c : Client.t) (w : World) :
  Forall (fun req =>
            req = http.mkRequest http.MethodPut
                    (Client.BaseUrl c ++ "/api/v1/ping?id=" ++ Client.Id c)
                    [("X-Registry-Token", Client.AuthToken c)] None)
         (sent (Ping c) w) /\
  (url_Parse (Client.BaseUrl c ++ "/api/v1/ping?id=" ++ Client.Id c) = None ->
   List.length (sent (Ping c) w) = 1%nat).
Proof.
  split; [apply Ping_dispatches|].
  unfold sent. rewrite Ping_run. intros ->. simpl.
  now rewrite skipn_length_app.
Qed.

(** The earlier revision pings without the identifier. *)
Lemma Legacy_ping_request (c : Legacy.Client) (w : World) :
  Forall (fun req =>
            req = http.mkRequest http.MethodPut
                    (Legacy.baseUrl c ++ "/api/v1/ping")
                    [("X-Registry-Token", Legacy.authToken c)] None)
         (sent (Legacy.ping c) w).
Proof.
  unfold sent, Legacy.ping, NewRequest.
  change (Legacy.getUrl c ping) with (Legacy.baseUrl c ++ "/api/v1/ping").
  destruct (url_Parse _) as [err|]; simpl.
  - rewrite skipn_all. constructor.
  - unfold bind, Do, ret.
    destruct (http_Do _ _ _) as [[e|resp] n]; simpl;
      [|destruct (http.StatusCode resp >=? 400)]; simpl;
      rewrite skipn_length_app; repeat constructor.
Qed.

(** *** Query *)

Lemma Errorf_create (cause : string) :
  Errorf "could not create request: %s" [fmt.ArgString cause] =
  "could not create request: " ++ cause.
Proof. apply (Sprintf_text_s "could not create request: "). reflexivity. Qed.

Lemma Errorf_execute (cause : string) :
  Errorf "could not execute query request: %s" [fmt.ArgString cause] =
  "could not execute query request: " ++ cause.
Proof.
  apply (Sprintf_text_s "could not execute query request: "). reflexivity.
Qed.

Lemma Errorf_decode (cause : string) :
  Errorf "could not decode JSON: %s" [fmt.ArgString cause] =
  "could not decode JSON: " ++ cause.
Proof. apply (Sprintf_text_s "could not decode JSON: "). reflexivity. Qed.

(** [Query], run from [w], in terms of the URL it formats. *)
Lemma Query_run (c : Client.t) (id : string) (w : World) :
  Query c id w =
  let url := Sprintf (getUrl c query) [fmt.ArgString id] in
  match url_Parse url with
  | Some cause =>
      ((Registrant.zero, Some ("could not create request: " ++ cause)), w)
  | None =>
      let req := http.mkRequest http.MethodGet url
                   [("X-Registry-Token", Client.AuthToken c)] None in
      let w' := mkWorld (snd (http_Do (Client.Client c) req (net w)))
                        (dispatched w ++ [req]) (stdout w) in
      match fst (http_Do (Client.Client c) req (net w)) with
      | inl cause =>
          ((Registrant.zero,
            Some ("could not execute query request: " ++ cause)), w')
      | inr resp =>
          match json_Decode (http.RespBody resp) with
          | inl cause =>
              ((Registrant.zero,
                Some ("could not decode JSON: " ++ cause)), w')
          | inr entry => ((entry, None), w')
          end
      end
  end.
Proof.
  unfold Query, NewRequest. cbv zeta.
  destruct (url_Parse _) as [cause|].
  - unfold ret. now rewrite Errorf_create.
  - unfold bind, Do, ret.
    change (addAuthHeader c ?r) with
      (http.mkRequest (http.ReqMethod r) (http.URL r)
         (http.Header r ++ [("X-Registry-Token", Client.AuthToken c)])
         (http.Body r)).
    simpl.
    destruct (http_Do _ _ _) as [[cause|resp] n]; simpl.
    + now rewrite Errorf_execute.
    + destruct (json_Decode _) as [cause|entry];
        [now rewrite Errorf_decode | reflexivity].
Qed.

(** C10: whenever [Query] returns an error, at whichever stage, the
    registrant next to it is the zero value. *)
Theorem Query_error_zero_registrant
        (c : Client.t) (id : string) (w : World) (e : error) :
  snd (result (Query c id) w) = Some e ->
  fst (result (Query c id) w) = Registrant.zero /\
  Registrant.Id (fst (result (Query c id) w)) = "" /\
  Registrant.Address (fst (result (Query c id) w)) = "".
Proof.
  unfold result. rewrite Query_run. cbv zeta.
  destruct (url_Parse _) as [cause|]; simpl; [auto|].
  destruct (fst (http_Do _ _ _)) as [cause|resp]; simpl; [auto|].
  destruct (json_Decode _) as [cause|entry]; simpl; [auto|discriminate].
Qed.

End Exchanges.

(** ** Request URLs *)

Section Urls.

Context {P : Platform}.

Lemma Register_requests (c : Client.t) (address : string) (w : World) :
  Forall (fun req =>
            http.ReqMethod req = http.MethodPost /\
            http.URL req = Client.BaseUrl c ++ "/api/v1" ++ "/register")
         (sent (Register c address) w).
Proof.
  unfold sent, Register, NewRequest.
  destruct (json_Marshal _) as [err|body]; [simpl; rewrite skipn_all; constructor|].
  destruct (url_Parse _) as [err|]; [simpl; rewrite skipn_all; constructor|].
  rewrite exchange_run. simpl. rewrite skipn_length_app.
  repeat constructor.
Qed.

Lemma Deregister_requests (c : Client.t) (w : World) :
  Forall (fun req =>
            http.ReqMethod req = http.MethodDelete /\
            http.URL req = Client.BaseUrl c ++ "/api/v1" ++ "/deregister")
         (sent (Deregister c) w).
Proof.
  unfold sent, Deregister, NewRequest.
  destruct (json_Marshal _) as [err|body]; [simpl; rewrite skipn_all; constructor|].
  destruct (url_Parse _) as [err|]; [simpl; rewrite skipn_all; constructor|].
  rewrite exchange_run. simpl. rewrite skipn_length_app.
  repeat constructor.
Qed.

Lemma Query_requests (c : Client.t) (id : string) (w : World) :
  Forall (fun req =>
            req = http.mkRequest http.MethodGet
                    (Sprintf (Client.BaseUrl c ++ "/api/v1" ++ "/query?id=%s")
                             [fmt.ArgString id])
                    [("X-Registry-Token", Client.AuthToken c)] None)
         (sent (Query c id) w).
Proof.
  unfold sent. rewrite Query_run. cbv zeta.
  change (getUrl c query)
    with (Client.BaseUrl c ++ "/api/v1" ++ "/query?id=%s").
  destruct (url_Parse _) as [cause|]; [simpl; rewrite skipn_all; constructor|].
  destruct (fst (http_Do _ _ _)) as [cause|resp];
    [|destruct (json_Decode _)]; simpl; rewrite skipn_length_app;
    repeat constructor.
Qed.

(** What the code keeps of the normalisation of the base address:
    [New] keeps the base address without one trailing slash (and
    unchanged when it has none); [getUrl] is that base address followed
    by [/api/v1] and the route; the requests of [Register] and
    [Deregister] go to exactly that URL, [Ping] appends [?id=] and the
    client's identifier to it, [Query] uses it as the format of the
    identifier asked for; and [http://svc:8080/] gives the register URL
    [http://svc:8080/api/v1/register]. *)
Theorem getUrl_normalized_base
        (baseUrl token id : string) (config : option ClientConfig) (r : Route) :
  (baseUrl = Client.BaseUrl (New baseUrl token id config) ++ "/" \/
   (Client.BaseUrl (New baseUrl token id config) = baseUrl /\
    forall p, baseUrl <> p ++ "/")) /\
  getUrl (New baseUrl token id config) r =
    Client.BaseUrl (New baseUrl token id config) ++ "/api/v1" ++ r /\
  (forall w address,
      Forall (fun req =>
                http.URL req =
                Client.BaseUrl (New baseUrl token id config)
                  ++ "/api/v1" ++ "/register")
             (sent (Register (New baseUrl token id config) address) w)) /\
  (forall w,
      Forall (fun req =>
                http.URL req =
                Client.BaseUrl (New baseUrl token id config)
                  ++ "/api/v1" ++ "/deregister")
             (sent (Deregister (New baseUrl token id config)) w)) /\
  (forall w,
      Forall (fun req =>
                http.URL req =
                (Client.BaseUrl (New baseUrl token id config)
                   ++ "/api/v1" ++ "/ping") ++ "?id=" ++ id)
             (sent (Ping (New baseUrl token id config)) w)) /\
  (forall w target,
      Forall (fun req =>
                http.URL req =
                Sprintf (Client.BaseUrl (New baseUrl token id config)
                           ++ "/api/v1" ++ "/query?id=%s")
                        [fmt.ArgString target])
             (sent (Query (New baseUrl token id config) target) w)) /\
  getUrl (New "http://svc:8080/" token id config) register =
    "http://svc:8080/api/v1/register".
Proof.
  split; [rewrite New_BaseUrl; apply TrimSuffix_cases|].
  split; [reflexivity|].
  split.
  { intros w address.
    eapply Forall_impl; [|apply Register_requests]. now intros req [_ H]. }
  split.
  { intros w.
    eapply Forall_impl; [|apply Deregister_requests]. now intros req [_ H]. }
  split.
  { intros w.
    eapply Forall_impl; [|apply Ping_dispatches].
    intros req ->. simpl. now rewrite !append_assoc. }
  split; [|reflexivity].
  intros w target.
  eapply Forall_impl; [|apply Query_requests]. now intros req ->.
Qed.

(** C9, at a base address that holds [%T]: the base address is
    normalised and [getUrl] is the normalised base address followed by
    [/api/v1] and the route, but the URL of the request is not: [Query]
    formats the whole of it, so the [%T] of the base address becomes the
    type of the identifier and the [%s] of the route has no operand.
    Once that URL parses, the request is sent to it. *)
Theorem Query_url_not_normalized_base (token own : string) (w : World) :
  Client.BaseUrl (New "http://h/%T/" token own None) = "http://h/%T" /\
  getUrl (New "http://h/%T/" token own None) query =
    "http://h/%T/api/v1/query?id=%s" /\
  Forall (fun req =>
            http.URL req = "http://h/string/api/v1/query?id=%!s(MISSING)")
         (sent (Query (New "http://h/%T/" token own None) "svc-b") w) /\
  (url_Parse "http://h/string/api/v1/query?id=%!s(MISSING)" = None ->
   sent (Query (New "http://h/%T/" token own None) "svc-b") w =
   [http.mkRequest http.MethodGet
      "http://h/string/api/v1/query?id=%!s(MISSING)"
      [("X-Registry-Token", token)] None]) /\
  "http://h/string/api/v1/query?id=%!s(MISSING)" <>
    "http://h/%T" ++ "/api/v1" ++ "/query?id=" ++ "svc-b".
Proof.
  assert (Hurl : Sprintf (getUrl (New "http://h/%T/" token own None) query)
                         [fmt.ArgString "svc-b"] =
                 "http://h/string/api/v1/query?id=%!s(MISSING)")
    by reflexivity.
  split; [reflexivity|]. split; [reflexivity|]. split; [|split].
  - eapply Forall_impl; [|apply Query_requests]. now intros req ->.
  - intros Hparse. unfold sent. rewrite Query_run. cbv zeta.
    rewrite Hurl, Hparse.
    destruct (fst (http_Do _ _ _)); [|destruct (json_Decode _)];
      cbn [snd dispatched]; now rewrite skipn_length_app.
  - discriminate.
Qed.

(** *** What [Query] asks for *)

Lemma prefix_append (p s : string) : prefix p (p ++ s) = true.
Proof.
  induction p as [|a p IH]; simpl; [now destruct s|].
  destruct (ascii_dec a a); [exact IH | congruence].
Qed.

Lemma stageOf_create cause :
  stageOf ("could not create request: " ++ cause) = Some BuildRequest.
Proof. unfold stageOf. now rewrite prefix_append. Qed.

Lemma stageOf_execute cause :
  stageOf ("could not execute query request: " ++ cause) = Some ExecuteRequest.
Proof.
  unfold stageOf.
  replace (prefix "could not create request: "
                  ("could not execute query request: " ++ cause))
    with false by reflexivity.
  now rewrite prefix_append.
Qed.

Lemma stageOf_decode cause :
  stageOf ("could not decode JSON: " ++ cause) = Some DecodeResponse.
Proof.
  unfold stageOf.
  replace (prefix "could not create request: "
                  ("could not decode JSON: " ++ cause))
    with false by reflexivity.
  replace (prefix "could not execute query request: "
                  ("could not decode JSON: " ++ cause))
    with false by reflexivity.
  now rewrite prefix_append.
Qed.

(** Every error of [Query] names the one stage that failed, in front
    of the cause reported by that stage. *)
Theorem Query_error_stage (c : Client.t) (id : string) (w : World) (e : error) :
  snd (result (Query c id) w) = Some e ->
  exists cause,
    (e = "could not create request: " ++ cause /\
     stageOf e = Some BuildRequest /\
     url_Parse (Sprintf (getUrl c query) [fmt.ArgString id]) = Some cause /\
     sent (Query c id) w = []) \/
    (e = "could not execute query request: " ++ cause /\
     stageOf e = Some ExecuteRequest /\
     url_Parse (Sprintf (getUrl c query) [fmt.ArgString id]) = None /\
     exists req,
       sent (Query c id) w = [req] /\
       fst (http_Do (Client.Client c) req (net w)) = inl cause) \/
    (e = "could not decode JSON: " ++ cause /\
     stageOf e = Some DecodeResponse /\
     url_Parse (Sprintf (getUrl c query) [fmt.ArgString id]) = None /\
     exists req resp,
       sent (Query c id) w = [req] /\
       fst (http_Do (Client.Client c) req (net w)) = inr resp /\
       json_Decode (http.RespBody resp) = inl cause).
Proof.
  assert (Hsome : forall m : string, Some m = Some e -> e = m)
    by (intros m H; congruence).
  unfold result, sent. rewrite Query_run. cbv zeta.
  destruct (url_Parse _) as [cause|] eqn:Hurl; cbn [fst snd dispatched].
  - intros ->%Hsome. exists cause. left.
    rewrite stageOf_create, skipn_all. auto.
  - destruct (fst (http_Do _ _ _)) as [cause|resp] eqn:Hdo;
      cbn [fst snd dispatched].
    + intros ->%Hsome. exists cause. right; left.
      rewrite stageOf_execute, skipn_length_app. eauto 6.
    + destruct (json_Decode _) as [cause|entry] eqn:Hdec;
        cbn [fst snd dispatched]; [|discriminate].
      intros ->%Hsome. exists cause. right; right.
      rewrite stageOf_decode, skipn_length_app. eauto 8.
Qed.

(** The request of [Query] does not depend on the client's own
    identifier. *)
Lemma Query_ignores_own_identifier (c c' : Client.t) (id : string) (w : World) :
  Client.BaseUrl c' = Client.BaseUrl c ->
  Client.AuthToken c' = Client.AuthToken c ->
  Client.Client c' = Client.Client c ->
  Query c' id w = Query c id w.
Proof.
  intros Hb Ht Hc. rewrite !Query_run. unfold getUrl.
  now rewrite Hb, Ht, Hc.
Qed.

(** With a base address free of [%], [Query] asks for the identifier
    it was given. *)
Theorem Query_targets_argument (c : Client.t) (id : string) (w : World) :
  strings.ContainsByte (Client.BaseUrl c) "%" = false ->
  Forall (fun req =>
            req = http.mkRequest http.MethodGet
                    (Client.BaseUrl c ++ "/api/v1/query?id=" ++ id)
                    [("X-Registry-Token", Client.AuthToken c)] None)
         (sent (Query c id) w).
Proof.
  intros H.
  eapply Forall_impl; [|apply Query_requests].
  intros req ->. f_equal.
  change (Client.BaseUrl c ++ "/api/v1" ++ "/query?id=%s")
    with (Client.BaseUrl c ++ "/api/v1/query?id=" ++ "%s").
  rewrite <- append_assoc, Sprintf_text_s, append_assoc; [reflexivity|].
  rewrite ContainsByte_append, H. reflexivity.
Qed.

(** C8, at a base address with a percent-encoded slash: the format
    [Query] hands to [Sprintf] is the whole URL, so the [%2F] of the
    base address takes the identifier (as a bad verb [F] of width 2) and
    the [%s] of the query route is left without operand.  No request of
    this call carries the identifier asked for as [id] parameter. *)
Theorem Query_format_consumes_base_url (token own : string) (w : World) :
  Sprintf (getUrl (New "http://intranet.local/registry%2Fv1" token own None)
                  query)
          [fmt.ArgString "svc-b"] =
    "http://intranet.local/registry%!F(string=svc-b)v1/api/v1/query?id=%!s(MISSING)" /\
  Forall (fun req =>
            http.URL req =
            "http://intranet.local/registry%!F(string=svc-b)v1/api/v1/query?id=%!s(MISSING)" /\
            http.URL req <>
            "http://intranet.local/registry%2Fv1/api/v1/query?id=svc-b")
         (sent (Query (New "http://intranet.local/registry%2Fv1" token own None)
                      "svc-b") w).
Proof.
  split; [reflexivity|].
  eapply Forall_impl; [|apply Query_requests].
  intros req ->. split; [reflexivity | discriminate].
Qed.

End Urls.

(** ** The liveness loop *)

Section LoopFacts.

Context {P : Platform}.

Lemma Select_eq_dec (a b : Select) : {a = b} + {a <> b}.
Proof. decide equality. Qed.

Lemma Ping_stdout (c : Client.t) (w : World) :
  stdout (snd (Ping c w)) = stdout w.
Proof. rewrite Ping_run. now destruct (url_Parse _). Qed.

Lemma tick_phase c l : phase (tick c l) = phase l.
Proof. unfold tick. now destruct (Ping c (world l)). Qed.

Lemma tick_ticker c l : ticker (tick c l) = ticker l.
Proof. unfold tick. now destruct (Ping c (world l)). Qed.

Lemma tick_beats c l :
  beats (tick c l) = (beats l ++ [result (Ping c) (world l)])%list.
Proof. unfold tick, result. now destruct (Ping c (world l)). Qed.

(** A failed heartbeat is reported on standard output, and only there. *)
Lemma tick_reports c l e :
  result (Ping c) (world l) = Some e ->
  stdout (world (tick c l)) = (stdout (world l) ++ [("ping error: " ++ e)%string])%list.
Proof.
  unfold tick, result. pose proof (Ping_stdout c (world l)) as H.
  destruct (Ping c (world l)) as [err w']. simpl in *.
  intros ->. simpl. now rewrite H.
Qed.

Lemma pingLoop_ticker c sched : forall l,
  ticker (pingLoop c sched l) = ticker l.
Proof.
  induction sched as [|[| |] sched IH]; intros l; simpl; auto.
  now rewrite IH, tick_ticker.
Qed.

Lemma pingLoop_app c s1 s2 : forall l,
  ~ In SelDone s1 ->
  pingLoop c (s1 ++ s2) l = pingLoop c s2 (pingLoop c s1 l).
Proof.
  induction s1 as [|[| |] s1 IH]; intros l H; simpl in *; auto.
  tauto.
Qed.

Lemma pingLoop_phase c sched : forall l,
  ~ In SelDone sched -> phase (pingLoop c sched l) = phase l.
Proof.
  induction sched as [|[| |] sched IH]; intros l H; simpl in *; auto.
  - tauto.
  - rewrite IH by tauto. apply tick_phase.
Qed.

Lemma pingLoop_stopped c sched : forall l,
  In SelDone sched -> phase (pingLoop c sched l) = Stopped.
Proof.
  induction sched as [|[| |] sched IH]; intros l H; simpl in *; auto.
  - contradiction.
  - destruct H as [H|H]; [discriminate | auto].
  - destruct H as [H|H]; [discriminate | auto].
Qed.

(** Without cancellation, every tick adds one heartbeat. *)
Lemma pingLoop_beats c sched : forall l,
  ~ In SelDone sched ->
  exists more,
    beats (pingLoop c sched l) = (beats l ++ more)%list /\
    List.length more = ticks sched.
Proof.
  induction sched as [|[| |] sched IH]; intros l H; simpl in *.
  - exists []. now rewrite app_nil_r.
  - tauto.
  - destruct (IH (tick c l)) as [more [Hb Hl]]; [tauto|].
    exists (result (Ping c) (world l) :: more).
    rewrite Hb, tick_beats, <- app_assoc. simpl. auto.
  - apply IH. tauto.
Qed.

Lemma StartPing_run c interval sched w :
  0 < interval ->
  StartPing c interval sched w =
  Some (pingLoop c sched (mkLoop Running (time.mkTicker interval false) [] w)).
Proof.
  intros H. unfold StartPing, time.NewTicker.
  destruct (Z.leb_spec interval 0); [lia | reflexivity].
Qed.

Lemma StartPing_Some c interval sched w l :
  StartPing c interval sched w = Some l ->
  l = pingLoop c sched (mkLoop Running (time.mkTicker interval false) [] w).
Proof.
  unfold StartPing, time.NewTicker.
  destruct (interval <=? 0); [discriminate | now intros [= <-]].
Qed.

(** What [Ping] adds to the dispatched requests is what it sends. *)
Lemma Ping_dispatched (c : Client.t) (w : World) :
  dispatched (snd (Ping c w)) = (dispatched w ++ sent (Ping c) w)%list.
Proof.
  unfold sent. rewrite Ping_run.
  destruct (url_Parse _); simpl.
  - now rewrite skipn_all, app_nil_r.
  - now rewrite skipn_length_app.
Qed.

Lemma Ping_sent_parsed (c : Client.t) (w : World) :
  url_Parse (Client.BaseUrl c ++ "/api/v1/ping?id=" ++ Client.Id c) = None ->
  sent (Ping c) w =
  [http.mkRequest http.MethodPut
     (Client.BaseUrl c ++ "/api/v1/ping?id=" ++ Client.Id c)
     [("X-Registry-Token", Client.AuthToken c)] None].
Proof.
  intros H. unfold sent. rewrite Ping_run, H. simpl.
  apply skipn_length_app.
Qed.

(** One [case <-t.C] is one call of [Ping] on the world of the loop:
    its result is recorded, the network and the dispatched requests are
    those [Ping] leaves, and the error, if any, is printed. *)
Lemma tick_spec (c : Client.t) (l : Loop) :
  phase (tick c l) = phase l /\
  beats (tick c l) = (beats l ++ [result (Ping c) (world l)])%list /\
  net (world (tick c l)) = net (snd (Ping c (world l))) /\
  dispatched (world (tick c l)) = dispatched (snd (Ping c (world l))) /\
  stdout (world (tick c l)) =
    (stdout (world l) ++
     match result (Ping c) (world l) with
     | Some e => [("ping error: " ++ e)%string]
     | None => []
     end)%list.
Proof.
  unfold tick, result. pose proof (Ping_stdout c (world l)) as H.
  destruct (Ping c (world l)) as [[e|] w']; simpl in *;
    rewrite H; repeat split; auto.
  now rewrite app_nil_r.
Qed.

(** C3: when the [Ping] of a tick fails, the error is printed and the
    loop goes on running; on any continuation without cancellation the
    next tick calls [Ping] again, on the world the loop has reached:
    the result of that call is recorded, the network moves as [Ping]
    moves it, and the request [Ping] sends is dispatched (the heartbeat
    request itself, once its URL parses).  [StartPing] has no error to
    return. *)
Theorem StartPing_survives_failed_heartbeat
        (c : Client.t) (interval : time.Duration) (s1 s2 : list Select)
        (w : World) (l0 : Loop) (e : error) :
  ~ In SelDone s1 -> ~ In SelDone s2 ->
  StartPing c interval s1 w = Some l0 ->
  result (Ping c) (world l0) = Some e ->
  exists l1 lm l2,
    (StartPing c interval (s1 ++ [SelTick]) w = Some l1 /\
     phase l1 = Running /\
     beats l1 = (beats l0 ++ [Some e])%list /\
     stdout (world l1) =
       (stdout (world l0) ++ [("ping error: " ++ e)%string])%list /\
     net (world l1) = net (snd (Ping c (world l0))) /\
     dispatched (world l1) =
       (dispatched (world l0) ++ sent (Ping c) (world l0))%list) /\
    (StartPing c interval (s1 ++ [SelTick] ++ s2) w = Some lm /\
     phase lm = Running) /\
    (StartPing c interval (s1 ++ [SelTick] ++ s2 ++ [SelTick]) w = Some l2 /\
     phase l2 = Running /\
     beats l2 = (beats lm ++ [result (Ping c) (world lm)])%list /\
     net (world l2) = net (snd (Ping c (world lm))) /\
     dispatched (world l2) =
       (dispatched (world lm) ++ sent (Ping c) (world lm))%list /\
     (url_Parse (Client.BaseUrl c ++ "/api/v1/ping?id=" ++ Client.Id c) = None ->
      sent (Ping c) (world lm) =
      [http.mkRequest http.MethodPut
         (Client.BaseUrl c ++ "/api/v1/ping?id=" ++ Client.Id c)
         [("X-Registry-Token", Client.AuthToken c)] None])).
Proof.
  intros H1 H2 Hrun Hfail.
  assert (Hno : ~ In SelDone (s1 ++ [SelTick])).
  { intros Hin. apply in_app_or in Hin as [Hin|[Hin|[]]];
      [tauto | discriminate]. }
  unfold StartPing in *.
  destruct (time.NewTicker interval) as [t|]; [|discriminate].
  injection Hrun as Hrun.
  set (init := mkLoop Running t [] w) in *.
  assert (Hp0 : phase l0 = Running)
    by (rewrite <- Hrun; now apply pingLoop_phase).
  exists (tick c l0), (pingLoop c s2 (tick c l0)),
         (tick c (pingLoop c s2 (tick c l0))).
  destruct (tick_spec c l0) as (Hp1 & Hb1 & Hn1 & Hd1 & Ho1).
  destruct (tick_spec c (pingLoop c s2 (tick c l0)))
    as (Hp2 & Hb2 & Hn2 & Hd2 & _).
  assert (Hpm : phase (pingLoop c s2 (tick c l0)) = Running)
    by (rewrite pingLoop_phase by assumption; congruence).
  split; [|split].
  - rewrite pingLoop_app, Hrun by assumption. simpl.
    rewrite Hfail in Hb1, Ho1.
    repeat split; auto; try congruence.
    now rewrite Hd1, Ping_dispatched.
  - replace (s1 ++ [SelTick] ++ s2)%list with ((s1 ++ [SelTick]) ++ s2)%list
      by now rewrite <- app_assoc.
    rewrite pingLoop_app by assumption.
    rewrite (pingLoop_app c s1 [SelTick]) by assumption.
    rewrite Hrun. simpl. auto.
  - replace (s1 ++ [SelTick] ++ s2 ++ [SelTick])%list
      with (((s1 ++ [SelTick]) ++ s2) ++ [SelTick])%list
      by now rewrite <- !app_assoc.
    rewrite pingLoop_app.
    + rewrite pingLoop_app by assumption.
      rewrite (pingLoop_app c s1 [SelTick]) by assumption.
      rewrite Hrun. simpl.
      repeat split; auto; try congruence.
      * now rewrite Hd2, Ping_dispatched.
      * apply Ping_sent_parsed.
    + intros Hin. apply in_app_or in Hin as [Hin|Hin]; tauto.
Qed.

(** C4: once [<-ctx.Done()] is taken the loop is stopped, and what
    the execution holds after that point changes nothing: the
    heartbeats, the dispatched requests and the output are those of the
    iterations before the observation. *)
Theorem StartPing_stops_on_cancellation
        (c : Client.t) (interval : time.Duration) (s1 s2 : list Select)
        (w : World) (l1 : Loop) :
  ~ In SelDone s1 ->
  StartPing c interval s1 w = Some l1 ->
  StartPing c interval (s1 ++ SelDone :: s2) w =
  Some (mkLoop Stopped (ticker l1) (beats l1) (world l1)).
Proof.
  intros H1. unfold StartPing.
  destruct (time.NewTicker interval) as [t|]; [|discriminate].
  intros [= <-]. now rewrite pingLoop_app.
Qed.

(** C5, as the code has it: [StartPing] panics on an interval that is
    not positive, before any ticker exists; otherwise it returns exactly
    when cancellation is observed, and the ticker it created has not
    been stopped at that point, nor at any other. *)
Theorem StartPing_exit_leaves_ticker_running
        (c : Client.t) (interval : time.Duration) (sched : list Select)
        (w : World) :
  (interval <= 0 -> StartPing c interval sched w = None) /\
  (0 < interval ->
   exists l,
     StartPing c interval sched w = Some l /\
     ticker l = time.mkTicker interval false /\
     (phase l = Stopped <-> In SelDone sched)).
Proof.
  split.
  - intros H. unfold StartPing, time.NewTicker.
    destruct (Z.leb_spec interval 0); [reflexivity | lia].
  - intros H. rewrite StartPing_run by assumption.
    eexists. split; [reflexivity|]. split; [apply pingLoop_ticker|].
    split.
    + intros Hp. destruct (in_dec Select_eq_dec SelDone sched) as [Hin|Hin];
        [exact Hin|].
      rewrite pingLoop_phase in Hp by assumption. discriminate.
    + apply pingLoop_stopped.
Qed.

End LoopFacts.

(** ** The properties on the scripted platform *)

Module Scenarios.

Import Mock.

(** [Register] against a registry that answers 500, then 204. *)
Lemma Register_sends_and_checks_status_witness :
  sent (Register client addr) (serving [respond 500 ""]) =
    [http.mkRequest http.MethodPost "http://svc:8080/api/v1/register"
       [("X-Registry-Token", "secret")]
       (Some (marshal (Registrant.mk "svc-a" addr)))] /\
  result (Register client addr) (serving [respond 500 ""]) =
    Some "received non-success status code (500)" /\
  result (Register client addr) (serving [respond 204 ""]) = None.
Proof.
  destruct (@Register_sends_and_checks_status platform client addr
              (serving [respond 500 ""]) _ eq_refl eq_refl) as [Hsent Hres].
  destruct (@Register_sends_and_checks_status platform client addr
              (serving [respond 204 ""]) _ eq_refl eq_refl) as [_ Hres'].
  split; [exact Hsent|]. split.
  - apply (proj1 (Hres (http.mkResponse 500 "") [] eq_refl)). simpl. lia.
  - apply (proj2 (Hres' (http.mkResponse 204 "") [] eq_refl)). simpl. lia.
Defined.

(** [Deregister] after two registrations and after itself. *)
Lemma Deregister_payload_fixed_witness :
  sent (Deregister client) (serving [respond 200 ""]) =
    [http.mkRequest http.MethodDelete "http://svc:8080/api/v1/deregister"
       [("X-Registry-Token", "secret")]
       (Some (marshal (Registrant.mk "svc-a" "")))] /\
  sent (Deregister client)
       (registerAll client [addr; "http://10.0.0.9:81"] (serving [respond 200 ""])) =
  sent (Deregister client) (serving [respond 200 ""]) /\
  sent (Deregister client) (snd (Deregister client (serving [respond 200 ""]))) =
  sent (Deregister client) (serving [respond 200 ""]).
Proof.
  exact (@Deregister_payload_fixed platform client (serving [respond 200 ""])
           [addr; "http://10.0.0.9:81"] _ eq_refl eq_refl).
Defined.

Lemma Ping_request_witness :
  List.length (sent (Ping client) (serving [respond 200 ""])) = 1%nat.
Proof.
  exact (proj2 (@Ping_request platform client (serving [respond 200 ""])) eq_refl).
Defined.

(** [Query] answered by a body that is not a registrant. *)
Lemma Query_error_zero_registrant_witness :
  fst (result (Query client "svc-b") (serving [respond 200 "<html>"])) =
  Registrant.zero.
Proof.
  exact (proj1 (@Query_error_zero_registrant platform client "svc-b"
                  (serving [respond 200 "<html>"])
                  "could not decode JSON: unexpected end of JSON input"
                  eq_refl)).
Defined.

Lemma Query_error_stage_witness :
  exists cause,
    stageOf "could not decode JSON: unexpected end of JSON input" =
      Some DecodeResponse /\
    "could not decode JSON: unexpected end of JSON input" =
      "could not decode JSON: " ++ cause.
Proof.
  destruct (@Query_error_stage platform client "svc-b"
              (serving [respond 200 "<html>"])
              "could not decode JSON: unexpected end of JSON input" eq_refl)
    as [cause [(He & Hs & _) | [(He & Hs & _) | (He & Hs & _)]]];
    try discriminate Hs.
  exists cause. split; [exact Hs | exact He].
Defined.

Lemma Query_targets_argument_witness :
  Forall (fun req =>
            req = http.mkRequest http.MethodGet
                    "http://svc:8080/api/v1/query?id=svc-b"
                    [("X-Registry-Token", "secret")] None)
         (sent (Query client "svc-b") (serving [respond 200 (marshal svc_b)])).
Proof.
  exact (@Query_targets_argument platform client "svc-b"
           (serving [respond 200 (marshal svc_b)]) eq_refl).
Defined.

(** The scenario of C9. *)
Lemma getUrl_normalized_base_witness :
  Client.BaseUrl client = "http://svc:8080" /\
  getUrl client register = "http://svc:8080/api/v1/register".
Proof.
  pose proof (@getUrl_normalized_base platform "http://svc:8080/" "secret"
                "svc-a" None register) as (Hbase & Hurl & _ & _ & _ & _ & Hreg).
  split; [|exact Hreg].
  destruct Hbase as [H | [_ H]].
  - apply (append_inj_r _ _ "/"). symmetry. exact H.
  - exfalso. apply (H "http://svc:8080"). reflexivity.
Defined.

(** The request [Query] sends for a base address that holds [%T]. *)
Lemma Query_url_not_normalized_base_witness :
  sent (Query (@New platform "http://h/%T/" "secret" "svc-a" None) "svc-b")
       (serving [respond 200 (marshal svc_b)]) =
  [http.mkRequest http.MethodGet
     "http://h/string/api/v1/query?id=%!s(MISSING)"
     [("X-Registry-Token", "secret")] None].
Proof.
  exact (proj1 (proj2 (proj2 (proj2
           (@Query_url_not_normalized_base platform "secret" "svc-a"
              (serving [respond 200 (marshal svc_b)]))))) eq_refl).
Defined.

(** A heartbeat answered by 500, an idle iteration, a second tick. *)
Lemma StartPing_survives_failed_heartbeat_witness :
  exists l2,
    StartPing client (30 * time.Second)
              ([SelDefault] ++ [SelTick] ++ [SelDefault] ++ [SelTick])
              (serving failing) = Some l2 /\
    phase l2 = Running /\
    beats l2 = [Some "received non-success status code (500)"; None] /\
    dispatched (world l2) =
      [http.mkRequest http.MethodPut "http://svc:8080/api/v1/ping?id=svc-a"
         [("X-Registry-Token", "secret")] None;
       http.mkRequest http.MethodPut "http://svc:8080/api/v1/ping?id=svc-a"
         [("X-Registry-Token", "secret")] None].
Proof.
  assert (exists l0,
             StartPing client (30 * time.Second) [SelDefault]
                       (serving failing) = Some l0 /\
             result (Ping client) (world l0) =
               Some "received non-success status code (500)")
    as (l0 & Hrun0 & Hfail) by (eexists; split; reflexivity).
  destruct (@StartPing_survives_failed_heartbeat platform client
              (30 * time.Second) [SelDefault] [SelDefault] (serving failing)
              l0 "received non-success status code (500)")
    as (l1 & lm & l2 & _ & (Hm & _) & (Hrun & Hphase & Hbeats & _ & Hd & Hs)).
  - simpl. intros [H|[]]. discriminate.
  - simpl. intros [H|[]]. discriminate.
  - exact Hrun0.
  - exact Hfail.
  - exists l2. split; [exact Hrun|]. split; [exact Hphase|].
    vm_compute in Hm. injection Hm as <-.
    rewrite Hbeats, Hd, (Hs eq_refl). split; reflexivity.
Defined.

(** Cancellation observed after one heartbeat; a tick is still pending. *)
Lemma StartPing_stops_on_cancellation_witness :
  exists l,
    StartPing client (30 * time.Second)
              ([SelTick; SelDefault] ++ SelDone :: [SelTick; SelTick])
              (serving failing) = Some l /\
    phase l = Stopped /\
    beats l = [Some "received non-success status code (500)"] /\
    List.length (dispatched (world l)) = 1%nat.
Proof.
  eexists. split.
  - apply (@StartPing_stops_on_cancellation platform client
             (30 * time.Second) [SelTick; SelDefault] [SelTick; SelTick]
             (serving failing)).
    + simpl. intros [H|[H|[]]]; discriminate.
    + reflexivity.
  - simpl. auto.
Defined.

(** C5 as stated fails: here the loop has returned on cancellation
    and its ticker was never stopped. *)
Lemma StartPing_ticker_not_released :
  ~ (forall l,
        StartPing client (30 * time.Second) [SelTick; SelDone]
                  (serving failing) = Some l ->
        phase l = Stopped ->
        time.stopped (ticker l) = true).
Proof.
  intros H.
  assert (exists l,
             StartPing client (30 * time.Second) [SelTick; SelDone]
                       (serving failing) = Some l /\
             phase l = Stopped /\
             time.stopped (ticker l) = false)
    as (l & Hrun & Hphase & Hticker)
    by (eexists; split; [reflexivity | split; reflexivity]).
  rewrite (H l Hrun Hphase) in Hticker. discriminate.
Qed.

Lemma StartPing_exit_leaves_ticker_running_witness :
  StartPing client 0 [SelTick; SelDone] (serving failing) = None /\
  exists l,
    StartPing client (30 * time.Second) [SelTick; SelDone] (serving failing) =
      Some l /\
    ticker l = time.mkTicker (30 * time.Second) false /\
    phase l = Stopped.
Proof.
  split.
  - apply (@StartPing_exit_leaves_ticker_running platform client 0
             [SelTick; SelDone] (serving failing)). lia.
  - destruct (proj2 (@StartPing_exit_leaves_ticker_running platform client
                       (30 * time.Second) [SelTick; SelDone] (serving failing)))
      as (l & Hrun & Hticker & Hphase).
    + reflexivity.
    + exists l. split; [exact Hrun|]. split; [exact Hticker|].
      apply Hphase. simpl. auto.
Defined.

End Scenarios.

(** * Further properties *)

(** ** Construction *)

Section MoreConstruction.

Context {P : Platform}.

(** Whatever the configuration, the timeout of a client built by [New]
    is above the floor of 10ms: an override at or below the floor never
    gets through. *)
Theorem New_timeout_above_floor
        (baseUrl token id : string) (config : option ClientConfig) :
  10 * time.Millisecond <
  http.Timeout (Client.Client (New baseUrl token id config)).
Proof.
  destruct config as [cfg|]; [|reflexivity].
  rewrite New_Timeout.
  destruct (Z.gtb_spec (cfgTimeout cfg) (10 * time.Millisecond));
    [lia | reflexivity].
Qed.

(** The transport of the configuration is installed whenever there is
    one, whether or not the timeout passes the floor; a configuration
    that sets only the transport keeps the default of 3s. *)
Theorem New_transport_override
        (baseUrl token id : string) (cfg : ClientConfig) :
  http.Transport (Client.Client (New baseUrl token id (Some cfg))) =
    cfgTransport cfg /\
  http.Transport (Client.Client (New baseUrl token id None)) = None /\
  (cfgTimeout cfg = 0 ->
   http.Timeout (Client.Client (New baseUrl token id (Some cfg))) =
   3 * time.Second).
Proof.
  split; [|split; [reflexivity|]].
  - unfold New.
    destruct (cfgTimeout cfg >? 10 * time.Millisecond);
      destruct (cfgTransport cfg); reflexivity.
  - intros H. rewrite New_Timeout, H. reflexivity.
Qed.

Lemma HasSuffix_false_no_split (s suffix : string) :
  strings.HasSuffix s suffix = false -> forall p, s <> p ++ suffix.
Proof. intros H p ->. now rewrite HasSuffix_append in H. Qed.

(** The trailing slash of the base address is optional: with or
    without it [New] builds the same client.  Only one slash is taken
    off: of two trailing slashes one stays, and shows in every URL. *)
Theorem New_trailing_slash_optional
        (baseUrl token id : string) (config : option ClientConfig) (r : Route) :
  (strings.HasSuffix baseUrl "/" = false ->
   New (baseUrl ++ "/") token id config = New baseUrl token id config) /\
  getUrl (New (baseUrl ++ "//") token id config) r =
    baseUrl ++ "//api/v1" ++ r.
Proof.
  split.
  - intros H. unfold New. rewrite TrimSuffix_append.
    unfold strings.TrimSuffix at 1. now rewrite H.
  - unfold getUrl, New; simpl Client.BaseUrl.
    replace (baseUrl ++ "//") with ((baseUrl ++ "/") ++ "/")
      by now rewrite append_assoc.
    rewrite TrimSuffix_append, append_assoc. reflexivity.
Qed.

(** The two revisions build the same client settings exactly when no
    override is given or the override is above the floor; at or below
    the floor the earlier revision takes the override where [New] keeps
    3s. *)
Theorem Legacy_New_agrees
        (baseUrl token id : string) (config : option ClientConfig) :
  Legacy.baseUrl (Legacy.New baseUrl token id config) =
    Client.BaseUrl (New baseUrl token id config) /\
  Legacy.authToken (Legacy.New baseUrl token id config) =
    Client.AuthToken (New baseUrl token id config) /\
  Legacy.id (Legacy.New baseUrl token id config) =
    Client.Id (New baseUrl token id config) /\
  http.Transport (Legacy.client (Legacy.New baseUrl token id config)) =
    http.Transport (Client.Client (New baseUrl token id config)) /\
  (http.Timeout (Legacy.client (Legacy.New baseUrl token id config)) =
     http.Timeout (Client.Client (New baseUrl token id config)) <->
   match config with
   | None => True
   | Some cfg => cfgTimeout cfg > 10 * time.Millisecond
   end).
Proof.
  repeat (split; [reflexivity|]).
  split.
  { destruct config as [cfg|]; [|reflexivity].
    unfold New, Legacy.New.
    destruct (cfgTimeout cfg >? 10 * time.Millisecond);
      destruct (cfgTransport cfg); reflexivity. }
  destruct config as [cfg|]; [|split; reflexivity].
  rewrite Legacy_New_Timeout, New_Timeout.
  destruct (Z.gtb_spec (cfgTimeout cfg) (10 * time.Millisecond)) as [Hgt|Hle].
  - split; [intros _; lia | reflexivity].
  - split; [|lia]. intros H. unfold time.Second, time.Millisecond, time.Nanosecond in *.
    lia.
Qed.

End MoreConstruction.

(** ** Exchanges *)

Section MoreExchanges.

Context {P : Platform}.

Lemma Register_run (c : Client.t) (address : string) (w : World) :
  Register c address w =
  match json_Marshal (Registrant.mk (Client.Id c) address) with
  | inl err => (Some err, w)
  | inr body =>
      match url_Parse (Client.BaseUrl c ++ "/api/v1/register") with
      | Some err => (Some err, w)
      | None =>
          let req := http.mkRequest http.MethodPost
                       (Client.BaseUrl c ++ "/api/v1/register")
                       [("X-Registry-Token", Client.AuthToken c)] (Some body) in
          (outcome (fst (http_Do (Client.Client c) req (net w))),
           mkWorld (snd (http_Do (Client.Client c) req (net w)))
                   (dispatched w ++ [req]) (stdout w))
      end
  end.
Proof.
  unfold Register, NewRequest.
  destruct (json_Marshal _) as [err|body]; [reflexivity|].
  change (getUrl c register) with (Client.BaseUrl c ++ "/api/v1/register").
  destruct (url_Parse _); [reflexivity|].
  now rewrite exchange_run.
Qed.

Lemma Deregister_run (c : Client.t) (w : World) :
  Deregister c w =
  match json_Marshal (Registrant.mk (Client.Id c) "") with
  | inl err => (Some err, w)
  | inr body =>
      match url_Parse (Client.BaseUrl c ++ "/api/v1/deregister") with
      | Some err => (Some err, w)
      | None =>
          let req := http.mkRequest http.MethodDelete
                       (Client.BaseUrl c ++ "/api/v1/deregister")
                       [("X-Registry-Token", Client.AuthToken c)] (Some body) in
          (outcome (fst (http_Do (Client.Client c) req (net w))),
           mkWorld (snd (http_Do (Client.Client c) req (net w)))
                   (dispatched w ++ [req]) (stdout w))
      end
  end.
Proof.
  unfold Deregister, NewRequest.
  destruct (json_Marshal _) as [err|body]; [reflexivity|].
  change (getUrl c deregister) with (Client.BaseUrl c ++ "/api/v1/deregister").
  destruct (url_Parse _); [reflexivity|].
  now rewrite exchange_run.
Qed.

Ltac nothing_happened :=
  left; simpl; rewrite skipn_all; repeat split; discriminate.

Ltac one_round_trip :=
  right; eexists; simpl; rewrite skipn_length_app; split; reflexivity.

(** None of the four calls retries or prints: each either leaves the
    world untouched and returns an error, or hands exactly one request
    to the network. *)
Theorem single_round_trip (c : Client.t) (address id : string) (w : World) :
  roundTripOrNothing (Client.Client c) (fun e => e <> None)
                     (Register c address) w /\
  roundTripOrNothing (Client.Client c) (fun e => e <> None)
                     (Deregister c) w /\
  roundTripOrNothing (Client.Client c) (fun e => e <> None) (Ping c) w /\
  roundTripOrNothing (Client.Client c) (fun r => snd r <> None)
                     (Query c id) w.
Proof.
  unfold roundTripOrNothing, sent, result.
  rewrite Register_run, Deregister_run, Ping_run, Query_run. cbv zeta.
  repeat split.
  - destruct (json_Marshal _); [nothing_happened|].
    destruct (url_Parse _); [nothing_happened | one_round_trip].
  - destruct (json_Marshal _); [nothing_happened|].
    destruct (url_Parse _); [nothing_happened | one_round_trip].
  - destruct (url_Parse _); [nothing_happened | one_round_trip].
  - destruct (url_Parse _); [nothing_happened|].
    destruct (fst (http_Do _ _ _)); [|destruct (json_Decode _)];
      one_round_trip.
Qed.

(** Every request of the four calls carries the token header, once,
    and no other header. *)
Theorem requests_carry_auth_token
        (c : Client.t) (address id : string) (w : World) :
  Forall (fun req => http.Header req = [("X-Registry-Token", Client.AuthToken c)])
         (sent (Register c address) w ++ sent (Deregister c) w ++
          sent (Ping c) w ++ sent (Query c id) w)%list.
Proof.
  unfold sent.
  rewrite Register_run, Deregister_run, Ping_run, Query_run. cbv zeta.
  repeat (apply Forall_app; split).
  - destruct (json_Marshal _); [simpl; rewrite skipn_all; constructor|].
    destruct (url_Parse _); simpl;
      [rewrite skipn_all | rewrite skipn_length_app]; repeat constructor.
  - destruct (json_Marshal _); [simpl; rewrite skipn_all; constructor|].
    destruct (url_Parse _); simpl;
      [rewrite skipn_all | rewrite skipn_length_app]; repeat constructor.
  - destruct (url_Parse _); simpl;
      [rewrite skipn_all | rewrite skipn_length_app]; repeat constructor.
  - destruct (url_Parse _); [simpl; rewrite skipn_all; constructor|].
    destruct (fst (http_Do _ _ _)); [|destruct (json_Decode _)]; simpl;
      rewrite skipn_length_app; repeat constructor.
Qed.

Lemma outcome_None (r : error + http.Response) :
  outcome r = None ->
  exists resp, r = inr resp /\ http.StatusCode resp < 400.
Proof.
  destruct r as [err|resp]; simpl; [discriminate|].
  unfold statusError.
  destruct (Z.geb_spec (http.StatusCode resp) 400); [discriminate|].
  intros _. exists resp. split; [reflexivity | lia].
Qed.

(** A nil error from [Register], [Deregister] or [Ping] means that the
    request went out and was answered with a status below 400. *)
Theorem success_means_answered (c : Client.t) (address : string) (w : World) :
  (result (Register c address) w = None ->
   exists req resp,
     sent (Register c address) w = [req] /\
     fst (http_Do (Client.Client c) req (net w)) = inr resp /\
     http.StatusCode resp < 400) /\
  (result (Deregister c) w = None ->
   exists req resp,
     sent (Deregister c) w = [req] /\
     fst (http_Do (Client.Client c) req (net w)) = inr resp /\
     http.StatusCode resp < 400) /\
  (result (Ping c) w = None ->
   exists req resp,
     sent (Ping c) w = [req] /\
     fst (http_Do (Client.Client c) req (net w)) = inr resp /\
     http.StatusCode resp < 400).
Proof.
  unfold sent, result.
  rewrite Register_run, Deregister_run, Ping_run. cbv zeta.
  repeat split.
  - destruct (json_Marshal _); [discriminate|].
    destruct (url_Parse _); [discriminate|]. simpl.
    intros (resp & Hdo & Hcode)%outcome_None.
    rewrite skipn_length_app. eauto.
  - destruct (json_Marshal _); [discriminate|].
    destruct (url_Parse _); [discriminate|]. simpl.
    intros (resp & Hdo & Hcode)%outcome_None.
    rewrite skipn_length_app. eauto.
  - destruct (url_Parse _); [discriminate|]. simpl.
    intros (resp & Hdo & Hcode)%outcome_None.
    rewrite skipn_length_app. eauto.
Qed.

(** An error of the transport comes back as it is from [Register],
    [Deregister] and [Ping]; [Query] puts its own text in front. *)
Theorem transport_error_returned
        (c : Client.t) (address id : string) (w : World)
        (req : http.Request) (err : error) :
  fst (http_Do (Client.Client c) req (net w)) = inl err ->
  (In req (sent (Register c address) w) ->
   result (Register c address) w = Some err) /\
  (In req (sent (Deregister c) w) -> result (Deregister c) w = Some err) /\
  (In req (sent (Ping c) w) -> result (Ping c) w = Some err) /\
  (In req (sent (Query c id) w) ->
   result (Query c id) w =
   (Registrant.zero, Some ("could not execute query request: " ++ err))).
Proof.
  intros Hdo. unfold sent, result.
  rewrite Register_run, Deregister_run, Ping_run, Query_run. cbv zeta.
  repeat split.
  - destruct (json_Marshal _); [simpl; rewrite skipn_all; contradiction|].
    destruct (url_Parse _); simpl; [rewrite skipn_all; contradiction|].
    rewrite skipn_length_app. intros [<-|[]]. now rewrite Hdo.
  - destruct (json_Marshal _); [simpl; rewrite skipn_all; contradiction|].
    destruct (url_Parse _); simpl; [rewrite skipn_all; contradiction|].
    rewrite skipn_length_app. intros [<-|[]]. now rewrite Hdo.
  - destruct (url_Parse _); simpl; [rewrite skipn_all; contradiction|].
    rewrite skipn_length_app. intros [<-|[]]. now rewrite Hdo.
  - destruct (url_Parse _); [simpl; rewrite skipn_all; contradiction|].
    match goal with
    | |- context [match fst (http_Do ?h ?r ?n) with _ => _ end] =>
        destruct (fst (http_Do h r n)) as [cause|resp] eqn:Hq
    end;
      [|destruct (json_Decode (http.RespBody resp))];
      cbn [fst snd dispatched];
      rewrite skipn_length_app; intros [<-|[]];
      rewrite Hdo in Hq; congruence.
Qed.

(** [Deregister] and [Ping] judge the answer as [Register] does: a
    status of 400 or more is the error naming the code, anything below
    is success. *)
Theorem Deregister_Ping_check_status
        (c : Client.t) (w : World) (req : http.Request) (resp : http.Response) :
  fst (http_Do (Client.Client c) req (net w)) = inr resp ->
  (In req (sent (Deregister c) w) ->
   result (Deregister c) w =
   if 400 <=? http.StatusCode resp
   then Some ("received non-success status code ("
                ++ fmt.itoa (http.StatusCode resp) ++ ")")
   else None) /\
  (In req (sent (Ping c) w) ->
   result (Ping c) w =
   if 400 <=? http.StatusCode resp
   then Some ("received non-success status code ("
                ++ fmt.itoa (http.StatusCode resp) ++ ")")
   else None).
Proof.
  intros Hdo.
  assert (Hout : outcome (inr resp) =
                 if 400 <=? http.StatusCode resp
                 then Some ("received non-success status code ("
                              ++ fmt.itoa (http.StatusCode resp) ++ ")")
                 else None).
  { simpl. destruct (Z.leb_spec 400 (http.StatusCode resp)).
    - now apply statusError_failure.
    - now apply statusError_success. }
  unfold sent, result. rewrite Deregister_run, Ping_run. cbv zeta.
  split.
  - destruct (json_Marshal _); [simpl; rewrite skipn_all; contradiction|].
    destruct (url_Parse _); simpl; [rewrite skipn_all; contradiction|].
    rewrite skipn_length_app. intros [<-|[]]. now rewrite Hdo.
  - destruct (url_Parse _); simpl; [rewrite skipn_all; contradiction|].
    rewrite skipn_length_app. intros [<-|[]]. now rewrite Hdo.
Qed.

(** [Query] does not look at the status code: whatever the status, a
    body that decodes is returned as the answer, without error. *)
Theorem Query_ignores_status
        (c : Client.t) (id : string) (w : World)
        (req : http.Request) (resp : http.Response) (entry : Registrant.t) :
  In req (sent (Query c id) w) ->
  fst (http_Do (Client.Client c) req (net w)) = inr resp ->
  json_Decode (http.RespBody resp) = inr entry ->
  result (Query c id) w = (entry, None).
Proof.
  unfold sent, result. rewrite Query_run. cbv zeta.
  destruct (url_Parse _); [simpl; rewrite skipn_all; contradiction|].
  destruct (fst (http_Do _ _ _)) as [cause|resp'] eqn:Hq;
    [|destruct (json_Decode _) as [cause|entry'] eqn:Hd];
    cbn [fst snd dispatched]; rewrite skipn_length_app;
    intros [<-|[]] Hdo Hdec; rewrite Hdo in Hq; congruence.
Qed.

(** [Query] returns without error only after all three stages went
    through, and then with the registrant decoded from the body. *)
Theorem Query_success_means_decoded (c : Client.t) (id : string) (w : World) :
  snd (result (Query c id) w) = None ->
  exists req resp,
    sent (Query c id) w = [req] /\
    fst (http_Do (Client.Client c) req (net w)) = inr resp /\
    json_Decode (http.RespBody resp) = inr (fst (result (Query c id) w)).
Proof.
  unfold sent, result. rewrite Query_run. cbv zeta.
  destruct (url_Parse _); [discriminate|].
  destruct (fst (http_Do _ _ _)) as [cause|resp] eqn:Hq; [discriminate|].
  destruct (json_Decode _) as [cause|entry] eqn:Hd; [discriminate|].
  cbn [fst snd dispatched]. intros _.
  rewrite skipn_length_app. eauto.
Qed.

End MoreExchanges.

(** ** Executions of the loop *)

Section MoreLoopFacts.

Context {P : Platform}.

Lemma failures_app (a b : list (option error)) :
  failures (a ++ b) = (failures a ++ failures b)%list.
Proof.
  induction a as [|[e|] a IH]; simpl; [reflexivity | now rewrite IH | exact IH].
Qed.

(** What one [case <-t.C] adds: one result, its line when it is an
    error, and at most the request of a heartbeat. *)
Lemma tick_log (c : Client.t) (l : Loop) :
  exists b reqs,
    beats (tick c l) = (beats l ++ [b])%list /\
    stdout (world (tick c l)) =
      (stdout (world l) ++ map (append "ping error: ") (failures [b]))%list /\
    dispatched (world (tick c l)) = (dispatched (world l) ++ reqs)%list /\
    Forall (fun req => req = pingRequest c) reqs /\
    (List.length reqs <= 1)%nat /\
    (url_Parse (http.URL (pingRequest c)) <> None -> reqs = []) /\
    (forall e, url_Parse (http.URL (pingRequest c)) = Some e -> b = Some e).
Proof.
  unfold tick. rewrite Ping_run. cbv zeta.
  change (Client.BaseUrl c ++ "/api/v1/ping?id=" ++ Client.Id c)
    with (http.URL (pingRequest c)).
  destruct (url_Parse (http.URL (pingRequest c))) as [err|].
  - exists (Some err), []. simpl. rewrite app_nil_r.
    repeat split; auto.
  - match goal with
    | |- context [outcome ?r] => destruct (outcome r) as [e|]
    end.
    + exists (Some e), [pingRequest c]. simpl.
      repeat split; auto; try discriminate. intros H; now contradiction H.
    + exists None, [pingRequest c]. simpl. rewrite app_nil_r.
      repeat split; auto; try discriminate. intros H; now contradiction H.
Qed.

(** The whole record of an execution run from [l]. *)
Lemma pingLoop_log (c : Client.t) (sched : list Select) : forall l,
  exists more reqs,
    beats (pingLoop c sched l) = (beats l ++ more)%list /\
    List.length more = ticks (untilDone sched) /\
    stdout (world (pingLoop c sched l)) =
      (stdout (world l) ++ map (append "ping error: ") (failures more))%list /\
    dispatched (world (pingLoop c sched l)) =
      (dispatched (world l) ++ reqs)%list /\
    Forall (fun req => req = pingRequest c) reqs /\
    (List.length reqs <= List.length more)%nat /\
    (url_Parse (http.URL (pingRequest c)) <> None -> reqs = []) /\
    (forall e, url_Parse (http.URL (pingRequest c)) = Some e ->
               Forall (fun b => b = Some e) more).
Proof.
  induction sched as [|[| |] sched IH]; intros l;
    cbn [pingLoop untilDone ticks beats world].
  - exists [], []. rewrite !app_nil_r. repeat split; auto.
  - exists [], []. rewrite !app_nil_r. repeat split; auto.
  - destruct (tick_log c l) as (b & r1 & Hb & Ho & Hd & Hf & Hl & Hn & He).
    destruct (IH (tick c l))
      as (more & r2 & Hb' & Hlen & Ho' & Hd' & Hf' & Hl' & Hn' & He').
    exists (b :: more), (r1 ++ r2)%list.
    rewrite Hb', Hb, Ho', Ho, Hd', Hd, <- !app_assoc.
    change (b :: more) with ([b] ++ more)%list.
    rewrite failures_app, map_app, length_app.
    repeat split; auto.
    + now apply Forall_app.
    + rewrite length_app. simpl. lia.
    + intros H. now rewrite (Hn H), (Hn' H).
    + intros e H. apply Forall_app. split; [|now apply He'].
      constructor; [now apply He | constructor].
  - apply IH.
Qed.

(** [Ping] reads the network and the dispatched requests only: the
    lines already printed have no influence on it. *)
Lemma Ping_wire (c : Client.t) (w w' : World) :
  net w = net w' -> dispatched w = dispatched w' ->
  result (Ping c) w = result (Ping c) w' /\
  net (snd (Ping c w)) = net (snd (Ping c w')) /\
  dispatched (snd (Ping c w)) = dispatched (snd (Ping c w')).
Proof.
  intros Hn Hd. unfold result. rewrite !Ping_run.
  destruct (url_Parse _); simpl; rewrite ?Hn, ?Hd; auto.
Qed.

Lemma pingTimes_S (c : Client.t) (k : nat) (w : World) :
  pingTimes c (S k) w =
  (result (Ping c) w :: result (pingTimes c k) (snd (Ping c w)),
   snd (pingTimes c k (snd (Ping c w)))).
Proof.
  simpl. unfold bind, ret, result.
  destruct (Ping c w) as [e w1]. simpl.
  now destruct (pingTimes c k w1).
Qed.

Lemma pingTimes_S_result (c : Client.t) (k : nat) (w : World) :
  result (pingTimes c (S k)) w =
  result (Ping c) w :: result (pingTimes c k) (snd (Ping c w)).
Proof. unfold result at 1. now rewrite pingTimes_S. Qed.

Lemma pingTimes_S_world (c : Client.t) (k : nat) (w : World) :
  snd (pingTimes c (S k) w) = snd (pingTimes c k (snd (Ping c w))).
Proof. now rewrite pingTimes_S. Qed.

Lemma pingTimes_wire (c : Client.t) (n : nat) : forall w w',
  net w = net w' -> dispatched w = dispatched w' ->
  result (pingTimes c n) w = result (pingTimes c n) w' /\
  net (snd (pingTimes c n w)) = net (snd (pingTimes c n w')) /\
  dispatched (snd (pingTimes c n w)) = dispatched (snd (pingTimes c n w')).
Proof.
  induction n as [|n IH]; intros w w' Hn Hd; [simpl; auto|].
  rewrite !pingTimes_S_result, !pingTimes_S_world.
  destruct (Ping_wire c w w' Hn Hd) as (Hr & Hn' & Hd').
  destruct (IH _ _ Hn' Hd') as (Hr2 & Hn2 & Hd2).
  rewrite Hr, Hr2. auto.
Qed.

Lemma pingTimes_length (c : Client.t) (n : nat) : forall w,
  List.length (result (pingTimes c n) w) = n.
Proof.
  induction n as [|n IH]; intros w; [reflexivity|].
  rewrite pingTimes_S_result. simpl. now rewrite IH.
Qed.

(** An execution run from [l] is as many calls of [Ping], one after
    the other, as ticks are taken before the first [<-ctx.Done()]. *)
Lemma pingLoop_pingTimes (c : Client.t) (sched : list Select) : forall l,
  beats (pingLoop c sched l) =
    (beats l ++ result (pingTimes c (ticks (untilDone sched))) (world l))%list /\
  net (world (pingLoop c sched l)) =
    net (snd (pingTimes c (ticks (untilDone sched)) (world l))) /\
  dispatched (world (pingLoop c sched l)) =
    dispatched (snd (pingTimes c (ticks (untilDone sched)) (world l))) /\
  stdout (world (pingLoop c sched l)) =
    (stdout (world l) ++
     map (append "ping error: ")
         (failures (result (pingTimes c (ticks (untilDone sched))) (world l))))%list.
Proof.
  induction sched as [|[| |] sched IH]; intros l;
    cbn [pingLoop untilDone ticks beats world].
  - simpl. now rewrite !app_nil_r.
  - simpl. now rewrite !app_nil_r.
  - destruct (IH (tick c l)) as (Hb & Hn & Hd & Ho).
    destruct (tick_spec c l) as (_ & Hb1 & Hn1 & Hd1 & Ho1).
    destruct (pingTimes_wire c (ticks (untilDone sched)) _ _ Hn1 Hd1)
      as (Hr & Hn2 & Hd2).
    rewrite !pingTimes_S_result, !pingTimes_S_world.
    rewrite Hb, Hn, Hd, Ho, Hb1, Ho1, Hr, Hn2, Hd2, <- !app_assoc.
    repeat split; auto.
    f_equal. now destruct (result (Ping c) (world l)).
  - apply IH.
Qed.

(** The loop calls [Ping] once for every [<-t.C] taken before the
    first [<-ctx.Done()], and never after: the results it records, the
    state of the network and the dispatched requests are those of that
    many calls of [Ping] made one after the other from the start. *)
Theorem StartPing_heartbeat_count
        (c : Client.t) (interval : time.Duration) (sched : list Select)
        (w : World) (l : Loop) :
  StartPing c interval sched w = Some l ->
  beats l = result (pingTimes c (ticks (untilDone sched))) w /\
  net (world l) = net (snd (pingTimes c (ticks (untilDone sched)) w)) /\
  dispatched (world l) =
    dispatched (snd (pingTimes c (ticks (untilDone sched)) w)) /\
  List.length (beats l) = ticks (untilDone sched).
Proof.
  intros ->%StartPing_Some.
  destruct (pingLoop_pingTimes c sched
              (mkLoop Running (time.mkTicker interval false) [] w))
    as (Hb & Hn & Hd & _).
  simpl in Hb, Hn, Hd.
  rewrite Hb, Hn, Hd, pingTimes_length. auto.
Qed.

Lemma pingLoop_busy (c : Client.t) (sched : list Select) : forall l,
  pingLoop c (busy sched) l = pingLoop c sched l.
Proof.
  induction sched as [|[| |] sched IH]; intros l; simpl; auto.
Qed.

(** The iterations that take [default] change nothing: with or without
    them the loop ends in the same state. *)
Theorem StartPing_idle_iterations
        (c : Client.t) (interval : time.Duration) (sched : list Select)
        (w : World) :
  StartPing c interval (busy sched) w = StartPing c interval sched w.
Proof.
  unfold StartPing. destruct (time.NewTicker interval); [|reflexivity].
  now rewrite pingLoop_busy.
Qed.

(** All the loop sends is heartbeats of its client: what it adds to
    the dispatched requests are copies of one request, at most one per
    call of [Ping]. *)
Theorem StartPing_only_heartbeats
        (c : Client.t) (interval : time.Duration) (sched : list Select)
        (w : World) (l : Loop) :
  StartPing c interval sched w = Some l ->
  exists reqs,
    dispatched (world l) = (dispatched w ++ reqs)%list /\
    Forall (fun req =>
              req = http.mkRequest http.MethodPut
                      (Client.BaseUrl c ++ "/api/v1/ping?id=" ++ Client.Id c)
                      [("X-Registry-Token", Client.AuthToken c)] None) reqs /\
    (List.length reqs <= List.length (beats l))%nat.
Proof.
  intros ->%StartPing_Some.
  destruct (pingLoop_log c sched
              (mkLoop Running (time.mkTicker interval false) [] w))
    as (more & reqs & Hb & _ & _ & Hd & Hf & Hl & _).
  exists reqs. rewrite Hb. auto.
Qed.

(** The loop prints one line for every call of [Ping] that failed,
    [ping error: ] and the error [Ping] returned, in the order of the
    calls, and nothing else: nothing for a heartbeat that succeeded. *)
Theorem StartPing_output
        (c : Client.t) (interval : time.Duration) (sched : list Select)
        (w : World) (l : Loop) :
  StartPing c interval sched w = Some l ->
  stdout (world l) =
    (stdout w ++
     map (append "ping error: ")
         (failures (result (pingTimes c (ticks (untilDone sched))) w)))%list /\
  stdout (world l) =
    (stdout w ++ map (append "ping error: ") (failures (beats l)))%list.
Proof.
  intros ->%StartPing_Some.
  destruct (pingLoop_pingTimes c sched
              (mkLoop Running (time.mkTicker interval false) [] w))
    as (Hb & _ & _ & Ho).
  simpl in Hb, Ho. rewrite Hb, Ho. auto.
Qed.

(** A client whose heartbeat URL does not parse keeps the loop going
    all the same: every tick fails with the parse error and nothing is
    ever sent. *)
Theorem StartPing_unparsable_url
        (c : Client.t) (interval : time.Duration) (sched : list Select)
        (w : World) (l : Loop) (e : error) :
  url_Parse (Client.BaseUrl c ++ "/api/v1/ping?id=" ++ Client.Id c) = Some e ->
  StartPing c interval sched w = Some l ->
  dispatched (world l) = dispatched w /\
  beats l = repeat (Some e) (ticks (untilDone sched)) /\
  (phase l = Stopped <-> In SelDone sched).
Proof.
  intros Hurl Hrun. pose proof Hrun as ->%StartPing_Some.
  destruct (pingLoop_log c sched
              (mkLoop Running (time.mkTicker interval false) [] w))
    as (more & reqs & Hb & Hlen & _ & Hd & _ & _ & Hn & He).
  split; [|split].
  - rewrite Hd, Hn; [apply app_nil_r|].
    change (http.URL (pingRequest c))
      with (Client.BaseUrl c ++ "/api/v1/ping?id=" ++ Client.Id c).
    now rewrite Hurl.
  - rewrite Hb, <- Hlen. simpl.
    specialize (He e Hurl). clear -He.
    induction He as [|b more -> _ IH]; simpl; [reflexivity | now f_equal].
  - split.
    + intros Hp. destruct (in_dec Select_eq_dec SelDone sched) as [Hin|Hin];
        [exact Hin|].
      rewrite pingLoop_phase in Hp by assumption. discriminate.
    + apply pingLoop_stopped.
Qed.

End MoreLoopFacts.

(** ** The earlier revision *)

Section MoreLegacy.

Context {P : Platform}.

Variable json_MarshalIndent : Registrant.t -> string -> string -> error + string.
Variable Entries : Type.
Variable json_DecodeEntries : string -> error + option Entries.

(** In the earlier revision both [Register] and [Deregister] are POSTs
    of the registrant marshalled with an indent of two spaces; the
    address of [Deregister] is empty there too. *)
Theorem Legacy_register_deregister_post
        (c : Legacy.Client) (address : string) (w : World)
        (body body' : string) :
  json_MarshalIndent (Registrant.mk (Legacy.id c) address) "" "  " = inr body ->
  json_MarshalIndent (Registrant.mk (Legacy.id c) "") "" "  " = inr body' ->
  url_Parse (Legacy.baseUrl c ++ "/api/v1/register") = None ->
  url_Parse (Legacy.baseUrl c ++ "/api/v1/deregister") = None ->
  sent (Legacy.Register json_MarshalIndent c address) w =
    [http.mkRequest http.MethodPost
       (Legacy.baseUrl c ++ "/api/v1/register")
       [("X-Registry-Token", Legacy.authToken c)] (Some body)] /\
  sent (Legacy.Deregister json_MarshalIndent c) w =
    [http.mkRequest http.MethodPost
       (Legacy.baseUrl c ++ "/api/v1/deregister")
       [("X-Registry-Token", Legacy.authToken c)] (Some body')].
Proof.
  intros Hb Hb' Hu Hu'.
  unfold sent, Legacy.Register, Legacy.Deregister, NewRequest.
  rewrite Hb, Hb'.
  change (Legacy.getUrl c register) with (Legacy.baseUrl c ++ "/api/v1/register").
  change (Legacy.getUrl c deregister)
    with (Legacy.baseUrl c ++ "/api/v1/deregister").
  rewrite Hu, Hu', !exchange_run. simpl.
  now rewrite !skipn_length_app.
Qed.

Lemma Legacy_Query_run (c : Legacy.Client) (w : World) :
  Legacy.Query Entries json_DecodeEntries c w =
  match url_Parse (Legacy.baseUrl c ++ "/api/v1/query") with
  | Some err => ((None, Some err), w)
  | None =>
      let req := http.mkRequest http.MethodGet
                   (Legacy.baseUrl c ++ "/api/v1/query")
                   [("X-Registry-Token", Legacy.authToken c)] None in
      let w' := mkWorld (snd (http_Do (Legacy.client c) req (net w)))
                        (dispatched w ++ [req]) (stdout w) in
      match fst (http_Do (Legacy.client c) req (net w)) with
      | inl err => ((None, Some err), w')
      | inr resp =>
          match json_DecodeEntries (http.RespBody resp) with
          | inl err => ((None, Some err), w')
          | inr entries => ((entries, None), w')
          end
      end
  end.
Proof.
  unfold Legacy.Query, NewRequest.
  change (Legacy.getUrl c Legacy.query)
    with (Legacy.baseUrl c ++ "/api/v1/query").
  destruct (url_Parse _); [reflexivity|].
  unfold bind, Do, ret. cbv zeta.
  change (Legacy.addAuthHeader c ?r) with
    (http.mkRequest (http.ReqMethod r) (http.URL r)
       (http.Header r ++ [("X-Registry-Token", Legacy.authToken c)])
       (http.Body r)).
  simpl.
  destruct (http_Do _ _ _) as [[err|resp] n]; simpl; [reflexivity|].
  now destruct (json_DecodeEntries _).
Qed.

(** [Query] of the earlier revision asks for all entries, naming no
    identifier; an error comes back as the failing stage gave it, with
    no text in front, and next to the nil map. *)
Theorem Legacy_Query_errors_unwrapped (c : Legacy.Client) (w : World) :
  Forall (fun req =>
            req = http.mkRequest http.MethodGet
                    (Legacy.baseUrl c ++ "/api/v1/query")
                    [("X-Registry-Token", Legacy.authToken c)] None)
         (sent (Legacy.Query Entries json_DecodeEntries c) w) /\
  forall e,
    snd (result (Legacy.Query Entries json_DecodeEntries c) w) = Some e ->
    fst (result (Legacy.Query Entries json_DecodeEntries c) w) = None /\
    (url_Parse (Legacy.baseUrl c ++ "/api/v1/query") = Some e \/
     exists req,
       sent (Legacy.Query Entries json_DecodeEntries c) w = [req] /\
       (fst (http_Do (Legacy.client c) req (net w)) = inl e \/
        exists resp,
          fst (http_Do (Legacy.client c) req (net w)) = inr resp /\
          json_DecodeEntries (http.RespBody resp) = inl e)).
Proof.
  unfold sent, result. rewrite Legacy_Query_run. cbv zeta.
  destruct (url_Parse _) as [err|].
  { simpl. rewrite skipn_all. split; [constructor|].
    intros e [= ->]. auto. }
  destruct (fst (http_Do _ _ _)) as [err|resp] eqn:Hdo;
    [|destruct (json_DecodeEntries _) as [err|entries] eqn:Hdec];
    cbn [fst snd dispatched]; rewrite skipn_length_app;
    (split; [repeat constructor|]).
  - intros e [= ->]. eauto 6.
  - intros e [= ->]. eauto 8.
  - discriminate.
Qed.

End MoreLegacy.

(** ** The further properties on the scripted platform *)

Module MoreScenarios.

Import Mock.
Import MockRuns.

(** A configuration that sets nothing but the transport. *)
Lemma New_transport_override_witness :
  http.Transport (Client.Client
    (@New platform "http://svc:8080/" "secret" "svc-a"
          (Some (@mkClientConfig platform 0 (Some tt))))) = Some tt /\
  http.Timeout (Client.Client
    (@New platform "http://svc:8080/" "secret" "svc-a"
          (Some (@mkClientConfig platform 0 (Some tt))))) = 3 * time.Second.
Proof.
  destruct (@New_transport_override platform "http://svc:8080/" "secret"
              "svc-a" (@mkClientConfig platform 0 (Some tt))) as (Ht & _ & Hd).
  split; [exact Ht | apply Hd; reflexivity].
Defined.

Lemma New_trailing_slash_optional_witness :
  @New platform ("http://svc:8080" ++ "/") "secret" "svc-a" None =
  @New platform "http://svc:8080" "secret" "svc-a" None.
Proof.
  apply (proj1 (@New_trailing_slash_optional platform "http://svc:8080"
                  "secret" "svc-a" None register)).
  reflexivity.
Defined.

(** An override of 5ms: taken by the earlier revision, not by [New]. *)
Lemma Legacy_New_agrees_witness :
  http.Timeout (Legacy.client
    (@Legacy.New platform "http://svc:8080/" "secret" "svc-a"
       (Some (mkClientConfig (5 * time.Millisecond) None)))) <>
  http.Timeout (Client.Client
    (@New platform "http://svc:8080/" "secret" "svc-a"
       (Some (mkClientConfig (5 * time.Millisecond) None)))).
Proof.
  destruct (@Legacy_New_agrees platform "http://svc:8080/" "secret" "svc-a"
              (Some (mkClientConfig (5 * time.Millisecond) None)))
    as (_ & _ & _ & _ & Hiff).
  intros H. apply Hiff in H. discriminate H.
Defined.

Lemma success_means_answered_witness :
  exists req resp,
    sent (Ping client) (serving [respond 204 ""]) = [req] /\
    fst (@http_Do platform (Client.Client client) req [respond 204 ""]) =
      inr resp /\
    http.StatusCode resp < 400.
Proof.
  exact (proj2 (proj2 (@success_means_answered platform client addr
                         (serving [respond 204 ""]))) eq_refl).
Defined.

(** The registry is down: nothing is served. *)
Lemma transport_error_returned_witness :
  result (Register client addr) (serving []) =
    Some "dial tcp: connection refused" /\
  result (Query client "svc-b") (serving []) =
    (Registrant.zero,
     Some "could not execute query request: dial tcp: connection refused").
Proof.
  split.
  - apply (proj1 (@transport_error_returned platform client addr "svc-b"
                    (serving [])
                    (http.mkRequest http.MethodPost
                       "http://svc:8080/api/v1/register"
                       [("X-Registry-Token", "secret")]
                       (Some (marshal (Registrant.mk "svc-a" addr))))
                    "dial tcp: connection refused" eq_refl)).
    simpl. auto.
  - apply (proj2 (proj2 (proj2
             (@transport_error_returned platform client addr "svc-b"
                (serving [])
                (http.mkRequest http.MethodGet
                   "http://svc:8080/api/v1/query?id=svc-b"
                   [("X-Registry-Token", "secret")] None)
                "dial tcp: connection refused" eq_refl)))).
    simpl. auto.
Defined.

Lemma Deregister_Ping_check_status_witness :
  result (Deregister client) (serving [respond 400 ""]) =
    Some "received non-success status code (400)" /\
  result (Ping client) (serving [respond 399 ""]) = None.
Proof.
  split.
  - apply (proj1 (@Deregister_Ping_check_status platform client
                    (serving [respond 400 ""])
                    (http.mkRequest http.MethodDelete
                       "http://svc:8080/api/v1/deregister"
                       [("X-Registry-Token", "secret")]
                       (Some (marshal (Registrant.mk "svc-a" ""))))
                    (http.mkResponse 400 "") eq_refl)).
    simpl. auto.
  - apply (proj2 (@Deregister_Ping_check_status platform client
                    (serving [respond 399 ""])
                    (http.mkRequest http.MethodPut
                       "http://svc:8080/api/v1/ping?id=svc-a"
                       [("X-Registry-Token", "secret")] None)
                    (http.mkResponse 399 "") eq_refl)).
    simpl. auto.
Defined.

Lemma statusError_code_witness :
  http.StatusCode (http.mkResponse 404 "a") =
  http.StatusCode (http.mkResponse 404 "b").
Proof.
  exact (@statusError_code platform (http.mkResponse 404 "a")
           (http.mkResponse 404 "b")
           "received non-success status code (404)" eq_refl eq_refl).
Defined.

(** A 404 whose body is a registrant all the same. *)
Lemma Query_ignores_status_witness :
  result (Query client "svc-b") (serving [respond 404 (marshal svc_b)]) =
  (svc_b, None).
Proof.
  apply (@Query_ignores_status platform client "svc-b"
           (serving [respond 404 (marshal svc_b)])
           (http.mkRequest http.MethodGet
              "http://svc:8080/api/v1/query?id=svc-b"
              [("X-Registry-Token", "secret")] None)
           (http.mkResponse 404 (marshal svc_b)) svc_b).
  - simpl. auto.
  - reflexivity.
  - reflexivity.
Defined.

Lemma Query_success_means_decoded_witness :
  exists req resp,
    sent (Query client "svc-b") (serving [respond 200 (marshal svc_b)]) = [req] /\
    fst (@http_Do platform (Client.Client client) req
           [respond 200 (marshal svc_b)]) = inr resp /\
    @json_Decode platform (http.RespBody resp) = inr svc_b.
Proof.
  exact (@Query_success_means_decoded platform client "svc-b"
           (serving [respond 200 (marshal svc_b)]) eq_refl).
Defined.

(** Two clients that differ in their own identifier only. *)
Lemma Query_ignores_own_identifier_witness :
  Query (@New platform "http://svc:8080/" "secret" "svc-z" None) "svc-b"
        (serving [respond 200 (marshal svc_b)]) =
  Query client "svc-b" (serving [respond 200 (marshal svc_b)]).
Proof.
  exact (@Query_ignores_own_identifier platform client
           (@New platform "http://svc:8080/" "secret" "svc-z" None) "svc-b"
           (serving [respond 200 (marshal svc_b)]) eq_refl eq_refl eq_refl).
Defined.

Lemma StartPing_heartbeat_count_witness :
  exists l,
    StartPing client (30 * time.Second) run (serving failing) = Some l /\
    beats l = [Some "received non-success status code (500)"; None] /\
    net (world l) = [] /\
    dispatched (world l) =
      [http.mkRequest http.MethodPut "http://svc:8080/api/v1/ping?id=svc-a"
         [("X-Registry-Token", "secret")] None;
       http.mkRequest http.MethodPut "http://svc:8080/api/v1/ping?id=svc-a"
         [("X-Registry-Token", "secret")] None] /\
    List.length (beats l) = 2%nat.
Proof.
  assert (exists l,
             StartPing client (30 * time.Second) run (serving failing) = Some l)
    as (l & Hrun) by (eexists; reflexivity).
  exists l. split; [exact Hrun|].
  exact (@StartPing_heartbeat_count platform client (30 * time.Second) run
           (serving failing) l Hrun).
Defined.

Lemma StartPing_only_heartbeats_witness :
  exists l reqs,
    StartPing client (30 * time.Second) run (serving failing) = Some l /\
    dispatched (world l) = reqs /\
    Forall (fun req =>
              req = http.mkRequest http.MethodPut
                      "http://svc:8080/api/v1/ping?id=svc-a"
                      [("X-Registry-Token", "secret")] None) reqs.
Proof.
  assert (exists l,
             StartPing client (30 * time.Second) run (serving failing) = Some l)
    as (l & Hrun) by (eexists; reflexivity).
  destruct (@StartPing_only_heartbeats platform client (30 * time.Second) run
              (serving failing) l Hrun) as (reqs & Hd & Hf & _).
  exists l, reqs. split; [exact Hrun|]. split; [exact Hd | exact Hf].
Defined.

Lemma StartPing_output_witness :
  exists l,
    StartPing client (30 * time.Second) run (serving failing) = Some l /\
    stdout (world l) = ["ping error: received non-success status code (500)"].
Proof.
  assert (exists l,
             StartPing client (30 * time.Second) run (serving failing) = Some l)
    as (l & Hrun) by (eexists; reflexivity).
  exists l. split; [exact Hrun|].
  exact (proj1 (@StartPing_output platform client (30 * time.Second) run
                  (serving failing) l Hrun)).
Defined.

Lemma StartPing_unparsable_url_witness :
  exists l,
    StartPing broken (30 * time.Second) run (serving failing) = Some l /\
    dispatched (world l) = [] /\
    beats l = [Some "net/url: invalid control character in URL";
               Some "net/url: invalid control character in URL"].
Proof.
  assert (exists l,
             StartPing broken (30 * time.Second) run (serving failing) = Some l)
    as (l & Hrun) by (eexists; reflexivity).
  destruct (@StartPing_unparsable_url platform broken (30 * time.Second) run
              (serving failing) l
              "net/url: invalid control character in URL" eq_refl Hrun)
    as (Hd & Hb & _).
  exists l. split; [exact Hrun|]. split; [exact Hd | exact Hb].
Defined.

Lemma Legacy_register_deregister_post_witness :
  sent (Legacy.Deregister MockLegacy.marshalIndent MockLegacy.client)
       (serving [respond 200 ""]) =
  [http.mkRequest http.MethodPost "http://svc:8080/api/v1/deregister"
     [("X-Registry-Token", "secret")]
     (match MockLegacy.marshalIndent (Registrant.mk "svc-a" "") "" "  " with
      | inr body => Some body
      | inl _ => None
      end)].
Proof.
  exact (proj2 (@Legacy_register_deregister_post platform
                  MockLegacy.marshalIndent MockLegacy.client addr
                  (serving [respond 200 ""]) _ _
                  eq_refl eq_refl eq_refl eq_refl)).
Defined.

(** The registry answers with a page that is no JSON. *)
Lemma Legacy_Query_errors_unwrapped_witness :
  fst (result (Legacy.Query MockLegacy.Entries MockLegacy.decodeEntries
                            MockLegacy.client)
              (serving [respond 200 "<html>"])) = None.
Proof.
  exact (proj1 (proj2 (@Legacy_Query_errors_unwrapped platform
                         MockLegacy.Entries MockLegacy.decodeEntries
                         MockLegacy.client (serving [respond 200 "<html>"]))
                      "invalid character '<' looking for beginning of value"
                      eq_refl)).
Defined.

End MoreScenarios.
